(** * cryptoPunkSearch: the async lifecycle of [App.tsx]

    A shallow embedding of the two copies of [App.tsx] kept in the
    repository: [src/App.tsx] and a second, commented copy.  The two copies
    share [useSafeDispatch], [asyncReducer], [PunkInfo] and the cards; they
    differ in the fulfilment callback of [run] and in the last branches of
    [handleSubmit].  Definitions shared by both are stated once; the ones
    that differ take the copy as a parameter ([SourceFile]). *)

From Stdlib Require Import ZArith Lia Ascii.
From stdpp Require Import base strings gmap list.

Local Open Scope string_scope.
Local Open Scope list_scope.

(** ** JavaScript values *)

(** [type PunkData = { number; type; image; accessories }]. *)
Record PunkData := {
  number : string;
  type : string;
  image : string;
  accessories : list string;
}.

(** Addresses of [Error] objects.  The rejection callback of [run] assigns
    to [error.message], so [Error] objects live in a heap and values refer
    to them by address. *)
Definition loc := nat.

(** A JavaScript [Error] object: [name] is the one of its prototype
    (["Error"], ["TypeError"], ...). *)
Record ErrorObj := {
  name : string;
  message : string;
}.

(** The values the program handles. *)
Inductive JsVal :=
| VUndefined
| VNull
| VStr (s : string)
| VPunk (d : PunkData)
| VErr (l : loc).

(** Plain objects (states, actions) are property maps; a missing property
    reads as [undefined]. *)
Abbreviation Obj := (gmap string JsVal).
Abbreviation Heap := (gmap loc ErrorObj).

Definition get (o : Obj) (k : string) : JsVal := default VUndefined (o !! k).

(** [v === 'literal'] *)
Definition strict_eq_str (v : JsVal) (lit : string) : bool :=
  match v with
  | VStr s => String.eqb s lit
  | _ => false
  end.

(** [Error.prototype.toString] *)
Definition error_toString (e : ErrorObj) : string :=
  if String.eqb (name e) "" then message e
  else if String.eqb (message e) "" then name e
  else name e +:+ ": " +:+ message e.

(** The string conversion of a template literal [`${v}`]. *)
Definition template (h : Heap) (v : JsVal) : string :=
  match v with
  | VUndefined => "undefined"
  | VNull => "null"
  | VStr s => s
  | VPunk _ => "[object Object]"
  | VErr l =>
      match h !! l with
      | Some e => error_toString e
      | None => "[object Object]"
      end
  end.

(** What a [throw] carries: an object built by [new Error(msg)] at the
    throw site, or a value that already exists. *)
Inductive Thrown :=
| ThrowNew (e : ErrorObj)
| ThrowVal (v : JsVal).

Inductive Result (A : Type) :=
| Ok (a : A)
| Throw (t : Thrown).
Arguments Ok {A} a.
Arguments Throw {A} t.

Definition new_Error (msg : string) : ErrorObj :=
  {| name := "Error"; message := msg |}.

(** ** asyncReducer *)

Definition asyncReducer (h : Heap) (state action : Obj) : Result Obj :=
  let ty := get action "type" in
  if strict_eq_str ty "pending" then
    Ok {[ "status" := VStr "pending" ]}
  else if strict_eq_str ty "resolved" then
    Ok {[ "status" := VStr "resolved"; "data" := get action "data" ]}
  else if strict_eq_str ty "rejected" then
    Ok {[ "status" := VStr "rejected"; "error" := get action "error" ]}
  else
    Throw (ThrowNew (new_Error ("Unhandled action type: " +:+ template h ty))).

(** ** The component instance

    One mounted [PunkInfo] owns one [useAsync] instance: the ref of
    [useSafeDispatch], the state of [React.useReducer], and the callbacks it
    has handed to promises and timers.  The JavaScript runtime is a single
    thread: callbacks given to [promise.then] run as jobs after the
    promise has settled, never inside [then]; callbacks given to
    [setTimeout] run when their timer fires. *)

Inductive SourceFile := App_tsx | part_000.

Definition pid := nat.

(** How a promise has settled: [data] of a fulfilment, the address of the
    [Error] of a rejection. *)
Inductive Settled :=
| Fulfilled (data : JsVal)
| Rejected (error : loc).

(** The callbacks of [run], applied to their argument.  [call] is a
    specification-only index of the [run] call that created the callback. *)
Inductive Job :=
| OnFulfilled (call : nat) (data : JsVal)
| OnRejected (call : nat) (error : loc)
| OnTimeout (call : nat) (data : JsVal).

(** An entry of the specification-only log: [run] call [by_call] invoked
    the dispatcher returned by [useSafeDispatch] with [action]. *)
Record Entry := {
  by_call : nat;
  action : Obj;
}.

Record World := {
  mountedRef : bool;                (* mountedRef.current *)
  state : Obj;                      (* the state of React.useReducer *)
  heap : Heap;                      (* the Error objects *)
  promises : gmap pid Settled;      (* settled promises; absent = pending *)
  reactions : list (pid * nat);     (* then-callbacks of pending promises *)
  microtasks : list Job;            (* promise jobs ready to run *)
  timers : list (nat * Job);        (* setTimeout: delay in ms, callback *)
  raw_calls : list Obj;             (* ghost: calls of the raw dispatch *)
  calls : nat;                      (* ghost: number of run calls *)
  log : list Entry;                 (* ghost: calls of the safe dispatch *)
}.

Definition set_mountedRef (b : bool) (w : World) : World :=
  {| mountedRef := b; state := state w; heap := heap w;
     promises := promises w; reactions := reactions w;
     microtasks := microtasks w; timers := timers w;
     raw_calls := raw_calls w; calls := calls w; log := log w |}.

Definition set_state (s : Obj) (w : World) : World :=
  {| mountedRef := mountedRef w; state := s; heap := heap w;
     promises := promises w; reactions := reactions w;
     microtasks := microtasks w; timers := timers w;
     raw_calls := raw_calls w; calls := calls w; log := log w |}.

Definition set_heap (h : Heap) (w : World) : World :=
  {| mountedRef := mountedRef w; state := state w; heap := h;
     promises := promises w; reactions := reactions w;
     microtasks := microtasks w; timers := timers w;
     raw_calls := raw_calls w; calls := calls w; log := log w |}.

Definition set_promises (ps : gmap pid Settled) (w : World) : World :=
  {| mountedRef := mountedRef w; state := state w; heap := heap w;
     promises := ps; reactions := reactions w;
     microtasks := microtasks w; timers := timers w;
     raw_calls := raw_calls w; calls := calls w; log := log w |}.

Definition set_reactions (rs : list (pid * nat)) (w : World) : World :=
  {| mountedRef := mountedRef w; state := state w; heap := heap w;
     promises := promises w; reactions := rs;
     microtasks := microtasks w; timers := timers w;
     raw_calls := raw_calls w; calls := calls w; log := log w |}.

Definition set_microtasks (js : list Job) (w : World) : World :=
  {| mountedRef := mountedRef w; state := state w; heap := heap w;
     promises := promises w; reactions := reactions w;
     microtasks := js; timers := timers w;
     raw_calls := raw_calls w; calls := calls w; log := log w |}.

Definition set_timers (ts : list (nat * Job)) (w : World) : World :=
  {| mountedRef := mountedRef w; state := state w; heap := heap w;
     promises := promises w; reactions := reactions w;
     microtasks := microtasks w; timers := ts;
     raw_calls := raw_calls w; calls := calls w; log := log w |}.

Definition set_raw_calls (cs : list Obj) (w : World) : World :=
  {| mountedRef := mountedRef w; state := state w; heap := heap w;
     promises := promises w; reactions := reactions w;
     microtasks := microtasks w; timers := timers w;
     raw_calls := cs; calls := calls w; log := log w |}.

Definition set_calls (n : nat) (w : World) : World :=
  {| mountedRef := mountedRef w; state := state w; heap := heap w;
     promises := promises w; reactions := reactions w;
     microtasks := microtasks w; timers := timers w;
     raw_calls := raw_calls w; calls := n; log := log w |}.

Definition set_log (l : list Entry) (w : World) : World :=
  {| mountedRef := mountedRef w; state := state w; heap := heap w;
     promises := promises w; reactions := reactions w;
     microtasks := microtasks w; timers := timers w;
     raw_calls := raw_calls w; calls := calls w; log := l |}.

(** Sequencing of computations that may throw. *)
Definition bind {A B} (r : Result A) (k : A -> Result B) : Result B :=
  match r with
  | Ok a => k a
  | Throw t => Throw t
  end.

Notation "'let!' x := r 'in' k" := (bind r (fun x => k))
  (at level 10, x name, r at level 100, k at level 200).

(** ** useSafeDispatch *)

(** The layout effect and its cleanup. *)
Definition layoutEffect (w : World) : World := set_mountedRef true w.
Definition layoutCleanup (w : World) : World := set_mountedRef false w.

(** The callback returned by [useSafeDispatch(dispatch)]:
    [(...args) => (mountedRef.current ? dispatch(...args) : void 0)].
    Every caller passes one argument and ignores the returned value. *)
Definition useSafeDispatch (dispatch : Obj -> World -> Result World)
    (args : Obj) (w : World) : Result World :=
  if mountedRef w then dispatch args w else Ok w.

(** ** useAsync *)

(** The initial state given to [React.useReducer]:
    [{ status: 'idle', data: null, error: null, ...initialState }]. *)
Definition useAsync_initial (initialState : Obj) : Obj :=
  initialState ∪
    {[ "status" := VStr "idle"; "data" := VNull; "error" := VNull ]}.

(** The dispatch of [React.useReducer(asyncReducer, ...)].  React queues
    the action and applies the reducer when it renders; the model applies
    it at once.  Only the normal return is relied on: every action [run]
    and its callbacks dispatch is one the reducer knows. *)
Definition unsafeDispatch (a : Obj) (w : World) : Result World :=
  let! s := asyncReducer (heap w) (state w) a in
  Ok (set_raw_calls (raw_calls w ++ [a]) (set_state s w)).

(** [dispatch = useSafeDispatch(unsafeDispatch)], with the call logged. *)
Definition dispatch (c : nat) (a : Obj) (w : World) : Result World :=
  useSafeDispatch unsafeDispatch a
    (set_log (log w ++ [{| by_call := c; action := a |}]) w).

(** [promise.then(onFulfilled, onRejected)]: on a pending promise the
    callbacks are kept until it settles; on a settled one the matching
    callback is queued as a job. *)
Definition then_ (p : pid) (c : nat) (w : World) : World :=
  match promises w !! p with
  | None => set_reactions (reactions w ++ [(p, c)]) w
  | Some (Fulfilled d) => set_microtasks (microtasks w ++ [OnFulfilled c d]) w
  | Some (Rejected l) => set_microtasks (microtasks w ++ [OnRejected c l]) w
  end.

(** [setTimeout(callback, ms)] *)
Definition setTimeout (j : Job) (ms : nat) (w : World) : World :=
  set_timers (timers w ++ [(ms, j)]) w.

(** [run(promise)] *)
Definition run (p : pid) (w : World) : Result World :=
  let c := calls w in
  let! w1 := dispatch c {[ "type" := VStr "pending" ]} (set_calls (S c) w) in
  Ok (then_ p c w1).

Definition user_message : string :=
  "Punk does not exist, please use the correct format when sumbitting a query!".

(** [error.message = ...] *)
Definition set_message (msg : string) (e : ErrorObj) : ErrorObj :=
  {| name := name e; message := msg |}.

(** The bodies of the callbacks of [run] and of the timer. *)
Definition exec (f : SourceFile) (j : Job) (w : World) : Result World :=
  match j with
  | OnFulfilled c data =>
      match f with
      | App_tsx =>
          dispatch c {[ "type" := VStr "resolved"; "data" := data ]} w
      | part_000 => Ok (setTimeout (OnTimeout c data) 2000 w)
      end
  | OnRejected c error =>
      let w1 := set_heap (alter (set_message user_message) error (heap w)) w in
      dispatch c {[ "type" := VStr "rejected"; "error" := VErr error ]} w1
  | OnTimeout c data =>
      dispatch c {[ "type" := VStr "resolved"; "data" := data ]} w
  end.

(** ** The runtime *)

Definition job_of (o : Settled) (c : nat) : Job :=
  match o with
  | Fulfilled d => OnFulfilled c d
  | Rejected l => OnRejected c l
  end.

(** A pending promise settles: its callbacks become jobs, in the order of
    their registration.  A promise settles once. *)
Definition settle (p : pid) (o : Settled) (w : World) : World :=
  match promises w !! p with
  | Some _ => w
  | None =>
      let mine := filter (fun r => r.1 = p) (reactions w) in
      let rest := filter (fun r => r.1 <> p) (reactions w) in
      set_microtasks (microtasks w ++ ((fun r => job_of o r.2) <$> mine))
        (set_reactions rest (set_promises (<[p := o]> (promises w)) w))
  end.

(** What can happen to the instance. *)
Inductive Step :=
| Attach                              (* the layout effect runs *)
| Detach                              (* its cleanup runs *)
| Run (p : pid)                       (* run(promise) is called *)
| Settle (p : pid) (o : Settled)      (* a promise settles *)
| Microtask                           (* the next promise job runs *)
| Timer (i : nat).                    (* the i-th timer fires *)

Definition step (f : SourceFile) (s : Step) (w : World) : Result World :=
  match s with
  | Attach => Ok (layoutEffect w)
  | Detach => Ok (layoutCleanup w)
  | Run p => run p w
  | Settle p o => Ok (settle p o w)
  | Microtask =>
      match microtasks w with
      | [] => Ok w
      | j :: js => exec f j (set_microtasks js w)
      end
  | Timer i =>
      match timers w !! i with
      | None => Ok w
      | Some (_, j) => exec f j (set_timers (delete i (timers w)) w)
      end
  end.

Fixpoint steps (f : SourceFile) (ss : list Step) (w : World) : Result World :=
  match ss with
  | [] => Ok w
  | s :: ss' => let! w' := step f s w in steps f ss' w'
  end.

(** The instance as [useAsync(initialState)] creates it. *)
Definition init (initialState : Obj) (h : Heap) : World :=
  {| mountedRef := false; state := useAsync_initial initialState; heap := h;
     promises := ∅; reactions := []; microtasks := []; timers := [];
     raw_calls := []; calls := 0; log := [] |}.


(** ** PunkInfo and the cards *)

(** A string is truthy when it is not empty. *)
Definition truthy (s : string) : bool := negb (String.eqb s "").

(** The initial state [PunkInfo] passes to [useAsync]. *)
Definition PunkInfo_initial (punkNumber : string) : Obj :=
  {[ "status" := VStr (if truthy punkNumber then "pending" else "idle") ]}.

(** The effect of [PunkInfo]; [p] is the promise [fetchPunk(punkNumber)]
    returns. *)
Definition PunkInfo_effect (punkNumber : string) (p : pid) (w : World)
    : Result World :=
  if negb (truthy punkNumber) then Ok w else run p w.

(** What [PunkInfo] returns to React. *)
Inductive Element :=
| Paragraph                                           (* <p> </p> *)
| PunkCardFallbackEl (number : string)
| ValidPunkCardEl (number : string) (punk : JsVal).

Definition PunkInfo (st : Obj) (punkNumber number : string) : Result Element :=
  let data := get st "data" in
  let status := get st "status" in
  let error := get st "error" in
  if strict_eq_str status "idle" || negb (truthy punkNumber) then
    Ok Paragraph
  else if strict_eq_str status "pending" then
    Ok (PunkCardFallbackEl number)
  else if strict_eq_str status "rejected" then
    Throw (ThrowVal error)
  else if strict_eq_str status "resolved" then
    Ok (ValidPunkCardEl number data)
  else
    Throw (ThrowNew (new_Error
      "This exists outside the error boundry and should not display")).

(** What [ValidPunkCard] shows. *)
Record Card := {
  href : string;
  img_src : string;
  img_alt : string;
  punk_text : string;
  type_text : string;
  accessory_items : list string;
}.

(** [punk.accessories] is an array, which is truthy also when empty: for a
    [PunkData] the card lists the accessories and never shows
    ["Loading..."] in their place. *)
Definition ValidPunkCard (punk : PunkData) (number : string) : Card :=
  {| href := "https://www.larvalabs.com/cryptopunks/details/" +:+ number;
     img_src := image punk;
     img_alt := type punk;
     punk_text := number;
     type_text := type punk;
     accessory_items := accessories punk |}.

(** [PunkCardFallback]: [ref] is the content of its [React.useRef(number)],
    [None] before the first render.  It returns the ref and the props of
    the [ValidPunkCard] it renders. *)
Definition PunkCardFallback (ref : option string) (number : string)
    : option string * (string * PunkData) :=
  let initialNumber := default number ref in
  let fallbackPunkData :=
    {| number := initialNumber; type := "XXXXX"; image := "/default.PNG";
       accessories := ["loading..."] |} in
  (Some initialNumber, (number, fallbackPunkData)).

(** ** PunkForm *)

Local Open Scope Z_scope.

(** Strings are sequences of code units below 256.  The white space
    [parseInt] skips, in that range: TAB, LF, VT, FF, CR, SP, NBSP. *)
Definition is_white_space (c : ascii) : bool :=
  let n := Z.of_nat (nat_of_ascii c) in
  ((9 <=? n) && (n <=? 13)) || (n =? 32) || (n =? 160).

Fixpoint trim_start (s : string) : string :=
  match s with
  | String c r => if is_white_space c then trim_start r else s
  | EmptyString => s
  end.

(** The value of a code unit as a digit in [radix], if it is one. *)
Definition digit_value (radix : Z) (c : ascii) : option Z :=
  let n := Z.of_nat (nat_of_ascii c) in
  let v :=
    if (48 <=? n) && (n <=? 57) then Some (n - 48)
    else if (97 <=? n) && (n <=? 122) then Some (n - 87)
    else if (65 <=? n) && (n <=? 90) then Some (n - 55)
    else None in
  match v with
  | Some d => if d <? radix then Some d else None
  | None => None
  end.

(** The value of the longest prefix of digits; [None] when it is empty. *)
Fixpoint digits (radix : Z) (s : string) (acc : option Z) : option Z :=
  match s with
  | String c r =>
      match digit_value radix c with
      | Some d => digits radix r (Some (radix * default 0 acc + d))
      | None => acc
      end
  | EmptyString => acc
  end.

(** [parseInt(s)] with no radix: [None] is [NaN].  The result is compared
    with 0, 10, 100 and 9999 and printed below 100 only, where the
    rounding of large values to a double and the sign of zero do not
    show; it is kept as an integer. *)
Definition parseInt (s : string) : option Z :=
  let s1 := trim_start s in
  let '(sign, s2) :=
    match s1 with
    | String "-"%char r => (-1, r)
    | String "+"%char r => (1, r)
    | _ => (1, s1)
    end in
  let '(radix, s3) :=
    match s2 with
    | String "0"%char (String "x"%char r) => (16, r)
    | String "0"%char (String "X"%char r) => (16, r)
    | _ => (10, s2)
    end in
  match digits radix s3 None with
  | Some n => Some (sign * n)
  | None => None
  end.

(** [`${n}`] for an integer [n] below 10^21, where JavaScript prints all
    the digits. *)
Definition digit_char (d : Z) : ascii := ascii_of_nat (Z.to_nat (48 + d)).

Fixpoint decimal (fuel : nat) (n : Z) (acc : string) : string :=
  match fuel with
  | O => acc
  | S fuel' =>
      let acc' := String (digit_char (n mod 10)) acc in
      if n <? 10 then acc' else decimal fuel' (n / 10) acc'
  end.

Definition number_template (n : Z) : string :=
  if n <? 0 then "-" +:+ decimal (Z.to_nat (- n) + 1) (- n) ""
  else decimal (Z.to_nat n + 1) n "".

(** [s.slice(0, n)] *)
Definition slice0 (n : nat) (s : string) : string := String.substring 0 n s.

(** What [handleSubmit] does to the outside. *)
Inductive FormEffect :=
| PreventDefault
| OnSubmit (newPunkName : string).

Definition handleSubmit (f : SourceFile) (punkName : string) : list FormEffect :=
  PreventDefault ::
  match parseInt punkName with
  | None => []
  | Some n =>
      if (n <? 100) && (n >=? 10) then
        [OnSubmit ("0" +:+ number_template n)]
      else if (n <? 10) && (n >=? 0) then
        [OnSubmit ("00" +:+ number_template n)]
      else
        match f with
        | App_tsx =>
            if n >? 9999 then [OnSubmit (slice0 4 punkName)]
            else [OnSubmit punkName]
        | part_000 => [OnSubmit punkName]
        end
  end.

Local Close Scope Z_scope.

(** ** Vocabulary of the statements *)

(** The actions [run] and its callbacks dispatch. *)
Definition pending_action : Obj := {[ "type" := VStr "pending" ]}.
Definition resolved_action (data : JsVal) : Obj :=
  {[ "type" := VStr "resolved"; "data" := data ]}.
Definition rejected_action (error : loc) : Obj :=
  {[ "type" := VStr "rejected"; "error" := VErr error ]}.

(** The tag of an action is one the reducer knows. *)
Definition recognized (a : Obj) : Prop :=
  get a "type" = VStr "pending" \/ get a "type" = VStr "resolved"
  \/ get a "type" = VStr "rejected".

(** The status of a state is one of the four of [PunkInfoState]. *)
Definition lifecycle (st : Obj) : Prop :=
  get st "status" = VStr "idle" \/ get st "status" = VStr "pending"
  \/ get st "status" = VStr "resolved" \/ get st "status" = VStr "rejected".

(** A sequence of actions applied through the reducer, oldest first. *)
Fixpoint reduce_all (h : Heap) (st : Obj) (acts : list Obj) : Result Obj :=
  match acts with
  | [] => Ok st
  | a :: acts' => let! st' := asyncReducer h st a in reduce_all h st' acts'
  end.

(** A sequence of calls of the safe dispatcher. *)
Fixpoint dispatch_all (cas : list (nat * Obj)) (w : World) : Result World :=
  match cas with
  | [] => Ok w
  | (c, a) :: cas' => let! w' := dispatch c a w in dispatch_all cas' w'
  end.

(** A log entry is the dispatch of a settlement. *)
Definition is_settlement (e : Entry) : bool :=
  strict_eq_str (get (action e) "type") "resolved"
  || strict_eq_str (get (action e) "type") "rejected".

Definition started_entry (c : nat) : Entry :=
  {| by_call := c; action := pending_action |}.

(** The [run] call a callback belongs to. *)
Definition job_call (j : Job) : nat :=
  match j with
  | OnFulfilled c _ | OnRejected c _ | OnTimeout c _ => c
  end.

(** Every callback still waiting belongs to a call whose ['pending']
    dispatch is in the log, and every settlement in the log comes after
    the ['pending'] dispatch of its call. *)
Definition started_first (w : World) : Prop :=
  (forall r, r ∈ reactions w -> started_entry r.2 ∈ log w)
  /\ (forall j, j ∈ microtasks w -> started_entry (job_call j) ∈ log w)
  /\ (forall t, t ∈ timers w -> started_entry (job_call t.2) ∈ log w)
  /\ (forall i e, log w !! i = Some e -> is_settlement e = true ->
       exists j, j < i /\ log w !! j = Some (started_entry (by_call e))).

(** Instances used to evaluate the definitions. *)
Definition punk7 : PunkData :=
  {| number := "007"; type := "Male"; image := "/punk007.png";
     accessories := ["Cap"] |}.
Definition error404 : ErrorObj := new_Error "404".
Definition world0 : World := init (PunkInfo_initial "007") {[ 0 := error404 ]}.
Definition attached : World := layoutEffect world0.
Definition detached : World := layoutCleanup attached.


(** The instance after a [run] call on the mounted view whose promise has
    rejected and whose callback has run. *)
Definition rejected_world : World :=
  match
    steps App_tsx [Attach; Run 0; Settle 0 (Rejected 0); Microtask] world0
  with
  | Ok w => w
  | Throw _ => world0
  end.

(** All characters of a string are decimal digits. *)
Fixpoint all_digits (s : string) : bool :=
  match s with
  | String c r => Nat.leb 48 (nat_of_ascii c) && Nat.leb (nat_of_ascii c) 57
                  && all_digits r
  | EmptyString => true
  end.

(** [s] is the decimal numeral of [n] on three digits. *)
Definition three_digits_of (n : Z) (s : string) : bool :=
  Nat.eqb (String.length s) 3 && all_digits s
  && match parseInt s with
     | Some m => Z.eqb m n
     | None => false
     end.

(** ** fetchPunk, ErrorFallback and App *)

(** What the network answers to the request of [fetchPunk]: [fetch] fails
    with an error, or a response arrives whose body [res.json()] parses
    into a [PunkData], as the annotation of [punkData] says, or fails to
    parse. *)
Inductive Body :=
| Json (punkData : PunkData)
| NotJson (e : ErrorObj).

Inductive Network :=
| FetchFails (e : ErrorObj)
| Response (ok : bool) (body : Body).

(** How the promise of an [async] function settles: with the value it
    returns, or with the error thrown or given to [Promise.reject]. *)
Inductive Outcome :=
| Returns (v : JsVal)
| Rejects (e : ErrorObj).

Definition fetchPunk_url (punkNumber : string) : string :=
  "https://cryptopunks.herokuapp.com/api/punks/" +:+ punkNumber.

Definition no_punk_found (punkNumber : string) : ErrorObj :=
  new_Error ("No Punk found with the number " +:+ punkNumber).

(** [fetchPunk(punkNumber)], given what the network answers to the request
    of [fetchPunk_url punkNumber].  Both copies await [res.json()] before
    they look at [res.ok]. *)
Definition fetchPunk (f : SourceFile) (punkNumber : string) (net : Network)
    : Outcome :=
  match net with
  | FetchFails e => Rejects e
  | Response ok (NotJson e) => Rejects e
  | Response ok (Json punkData) =>
      match f with
      | App_tsx =>
          if negb ok then Rejects (no_punk_found punkNumber)
          else Returns (VPunk punkData)
      | part_000 =>
          if ok then
            if truthy (image punkData) then Returns (VPunk punkData)
            else Rejects (no_punk_found punkNumber)
          else Returns (VPunk punkData)
      end
  end.

(** The promise [p] of an [async] function settles: an error it rejects
    with is a new object of the heap. *)
Definition settle_with (p : pid) (o : Outcome) (w : World) : World :=
  match o with
  | Returns v => settle p (Fulfilled v) w
  | Rejects e =>
      let l := fresh (dom (heap w)) in
      settle p (Rejected l) (set_heap (<[l := e]> (heap w)) w)
  end.

(** What [ErrorFallback] shows. *)
Record Alert := {
  alert_text : string;
  pre_text : string;
  button_text : string;
}.

Definition ErrorFallback (error : ErrorObj) : Alert :=
  {| alert_text := "There was an error: "; pre_text := message error;
     button_text := "Try again" |}.

(** [App]: its state is [punkNumber]. *)
Definition App_handleSubmit (newPunkNumber : string) (punkNumber : string)
    : string :=
  newPunkNumber.

Definition App_handleReset (punkNumber : string) : string := "".

(** The state of [App] after a submit of the form, whose [onSubmit] is
    [App_handleSubmit]. *)
Definition App_after (effects : list FormEffect) (punkNumber : string)
    : string :=
  foldl (fun pn e =>
           match e with
           | PreventDefault => pn
           | OnSubmit v => App_handleSubmit v pn
           end) punkNumber effects.

(** ** Vocabulary of the further statements *)


(** The [Error] at [l], if there is one, carries the fixed message. *)
Definition message_fixed (h : Heap) (l : loc) : Prop :=
  forall e, h !! l = Some e -> message e = user_message.

(** The argument of a callback is what some promise has settled with. *)
Definition job_sourced (ps : gmap pid Settled) (j : Job) : Prop :=
  match j with
  | OnFulfilled _ d | OnTimeout _ d => exists p, ps !! p = Some (Fulfilled d)
  | OnRejected _ l => exists p, ps !! p = Some (Rejected l)
  end.

(** What the state holds comes from the promises given to [run]: the
    status is one of the four, the data of a resolved state is the value
    of a fulfilled promise, the error of a rejected state is the [Error]
    of a rejected promise and carries the fixed message. *)
Definition from_promises (w : World) : Prop :=
  lifecycle (state w)
  /\ (get (state w) "status" = VStr "resolved" ->
      exists p, promises w !! p = Some (Fulfilled (get (state w) "data")))
  /\ (get (state w) "status" = VStr "rejected" ->
      exists p l, promises w !! p = Some (Rejected l)
                  /\ get (state w) "error" = VErr l
                  /\ message_fixed (heap w) l)
  /\ (forall j, j ∈ microtasks w -> job_sourced (promises w) j)
  /\ (forall t, t ∈ timers w -> job_sourced (promises w) t.2).

(** The timers a copy of the file can have pending: none in
    [src/App.tsx]; in the second copy, timers of 2000 ms that hold the
    ['resolved'] dispatch. *)
Definition timers_of (f : SourceFile) (w : World) : Prop :=
  match f with
  | App_tsx => timers w = []
  | part_000 =>
      forall t, t ∈ timers w -> exists c d, t = (2000, OnTimeout c d)
  end.

(** The number of elements of a list that satisfy [P]. *)
Definition tally {A} (P : A -> Prop) `{!forall x, Decision (P x)}
    (l : list A) : nat :=
  length (filter P l).

(** The callbacks of [run] call [c] that have not run yet: kept for a
    pending promise, queued as jobs, or held by a timer. *)
Definition waiting (c : nat) (w : World) : nat :=
  tally (fun r : pid * nat => r.2 = c) (reactions w)
  + tally (fun j : Job => job_call j = c) (microtasks w)
  + tally (fun t : nat * Job => job_call t.2 = c) (timers w).

(** The dispatches [run] call [c] has made: of ['pending'], and of a
    settlement. *)
Definition starts (c : nat) (w : World) : nat :=
  tally (fun e : Entry => by_call e = c /\ is_settlement e = false) (log w).

Definition settlements (c : nat) (w : World) : nat :=
  tally (fun e : Entry => by_call e = c /\ is_settlement e = true) (log w).

(** Every [run] call made so far has dispatched ['pending'] once, and has
    either one callback waiting or one settlement dispatched. *)
Definition one_sequence_per_call (w : World) : Prop :=
  forall c,
    starts c w = (if decide (c < calls w) then 1 else 0)
    /\ waiting c w + settlements c w = (if decide (c < calls w) then 1 else 0).

(** * Theorems *)

(** ** The reducer *)

Lemma strict_eq_str_true (v : JsVal) (lit : string) :
  strict_eq_str v lit = true <-> v = VStr lit.
Proof.
  destruct v; simpl; try (split; [discriminate | congruence]).
  rewrite String.eqb_eq. split; congruence.
Qed.

Lemma strict_eq_str_false (v : JsVal) (lit : string) :
  strict_eq_str v lit = false <-> v <> VStr lit.
Proof.
  rewrite <- strict_eq_str_true. destruct (strict_eq_str v lit); split;
    congruence.
Qed.

Lemma reducer_pending (h : Heap) (st a : Obj) :
  get a "type" = VStr "pending" ->
  asyncReducer h st a = Ok {[ "status" := VStr "pending" ]}.
Proof. intros H. unfold asyncReducer. rewrite H. reflexivity. Qed.

Lemma reducer_resolved (h : Heap) (st a : Obj) :
  get a "type" = VStr "resolved" ->
  asyncReducer h st a
  = Ok {[ "status" := VStr "resolved"; "data" := get a "data" ]}.
Proof. intros H. unfold asyncReducer. rewrite H. reflexivity. Qed.

Lemma reducer_rejected (h : Heap) (st a : Obj) :
  get a "type" = VStr "rejected" ->
  asyncReducer h st a
  = Ok {[ "status" := VStr "rejected"; "error" := get a "error" ]}.
Proof. intros H. unfold asyncReducer. rewrite H. reflexivity. Qed.

(** C2. Whatever the prior state, the ['pending'] action yields exactly
    [{ status: 'pending' }]: the state has the one property [status], so
    neither [data] nor [error] of the prior state survives. *)
Theorem started_yields_exactly_pending (h : Heap) (st a : Obj) :
  get a "type" = VStr "pending" ->
  exists st',
    asyncReducer h st a = Ok st'
    /\ st' = {[ "status" := VStr "pending" ]}
    /\ dom st' = {[ "status" ]}
    /\ st' !! "data" = None /\ st' !! "error" = None.
Proof.
  intros H. exists {[ "status" := VStr "pending" ]}.
  split; [by apply reducer_pending |]. split; [done |].
  split; [by rewrite dom_singleton_L |]. split; reflexivity.
Qed.

Lemma started_yields_exactly_pending_witness :
  exists st',
    asyncReducer ∅
      {[ "status" := VStr "resolved";
         "data" := VPunk {| number := "007"; type := "Male"; image := "i";
                            accessories := ["Cap"] |} ]}
      pending_action = Ok st'
    /\ st' = {[ "status" := VStr "pending" ]}
    /\ dom st' = {[ "status" ]}
    /\ st' !! "data" = None /\ st' !! "error" = None.
Proof. apply started_yields_exactly_pending. reflexivity. Defined.

(** C3. For every prior state, an action whose tag is none of
    ['pending'], ['resolved'], ['rejected'] makes the reducer throw
    [new Error(`Unhandled action type: ${action.type}`)]; no state is
    returned. *)
Theorem unrecognized_action_throws (h : Heap) (st a : Obj) :
  get a "type" <> VStr "pending" ->
  get a "type" <> VStr "resolved" ->
  get a "type" <> VStr "rejected" ->
  asyncReducer h st a
  = Throw (ThrowNew (new_Error
      ("Unhandled action type: " +:+ template h (get a "type"))))
  /\ forall st', asyncReducer h st a <> Ok st'.
Proof.
  intros H1 H2 H3. apply strict_eq_str_false in H1, H2, H3.
  unfold asyncReducer. rewrite H1, H2, H3. split; [reflexivity | discriminate].
Qed.

Lemma unrecognized_action_throws_witness :
  asyncReducer ∅ {[ "status" := VStr "idle" ]} {[ "type" := VStr "reset" ]}
  = Throw (ThrowNew (new_Error
      ("Unhandled action type: "
       +:+ template ∅ (get ({[ "type" := VStr "reset" ]} : Obj) "type"))))
  /\ forall st',
      asyncReducer ∅ {[ "status" := VStr "idle" ]} {[ "type" := VStr "reset" ]}
      <> Ok st'.
Proof. apply unrecognized_action_throws; vm_compute; discriminate. Defined.

Lemma reducer_recognized (h : Heap) (st a : Obj) :
  recognized a ->
  exists st', asyncReducer h st a = Ok st' /\ lifecycle st'.
Proof.
  intros [H | [H | H]].
  - rewrite (reducer_pending _ _ _ H). eexists; split; [done |].
    right; left; reflexivity.
  - rewrite (reducer_resolved _ _ _ H). eexists; split; [done |].
    right; right; left; reflexivity.
  - rewrite (reducer_rejected _ _ _ H). eexists; split; [done |].
    right; right; right; reflexivity.
Qed.

(** C4. From a state whose status is one of the four, every sequence of
    recognized actions goes through the reducer without a throw and ends in
    a state whose status is one of the four. *)
Theorem status_stays_in_lifecycle (h : Heap) (st : Obj) (acts : list Obj) :
  lifecycle st ->
  Forall recognized acts ->
  exists st', reduce_all h st acts = Ok st' /\ lifecycle st'.
Proof.
  intros Hst Hacts. revert st Hst.
  induction Hacts as [| a acts Ha _ IH]; intros st Hst; simpl.
  - by exists st.
  - destruct (reducer_recognized h st a Ha) as (st1 & -> & Hst1). simpl.
    by apply IH.
Qed.

Lemma status_stays_in_lifecycle_witness :
  exists st',
    reduce_all ∅ (useAsync_initial (PunkInfo_initial "007"))
      [pending_action; rejected_action 0; pending_action;
       resolved_action VNull] = Ok st'
    /\ lifecycle st'.
Proof.
  apply status_stays_in_lifecycle.
  - right; left; reflexivity.
  - repeat (apply Forall_cons; split);
      [ left | right; right | left | right; left | apply Forall_nil ];
      reflexivity.
Defined.

(** ** The safe dispatcher *)

Lemma pending_recognized : recognized pending_action.
Proof. left; reflexivity. Qed.

Lemma resolved_recognized (data : JsVal) : recognized (resolved_action data).
Proof. right; left; reflexivity. Qed.

Lemma rejected_recognized (error : loc) : recognized (rejected_action error).
Proof. right; right; reflexivity. Qed.

Create HintDb actions.
#[local] Hint Resolve pending_recognized resolved_recognized
  rejected_recognized : actions.

Lemma dispatch_detached (c : nat) (a : Obj) (w : World) :
  mountedRef w = false ->
  dispatch c a w = Ok (set_log (log w ++ [{| by_call := c; action := a |}]) w).
Proof. intros H. unfold dispatch, useSafeDispatch. simpl. by rewrite H. Qed.

Lemma dispatch_attached (c : nat) (a : Obj) (w : World) :
  mountedRef w = true ->
  dispatch c a w
  = let! s := asyncReducer (heap w) (state w) a in
    Ok (set_raw_calls (raw_calls w ++ [a])
          (set_state s
             (set_log (log w ++ [{| by_call := c; action := a |}]) w))).
Proof. intros H. unfold dispatch, useSafeDispatch. simpl. by rewrite H. Qed.

(** What a dispatch leaves alone, and what it adds to the log. *)
Lemma dispatch_frame (c : nat) (a : Obj) (w w' : World) :
  dispatch c a w = Ok w' ->
  log w' = log w ++ [{| by_call := c; action := a |}]
  /\ mountedRef w' = mountedRef w /\ heap w' = heap w
  /\ promises w' = promises w /\ reactions w' = reactions w
  /\ microtasks w' = microtasks w /\ timers w' = timers w
  /\ calls w' = calls w.
Proof.
  destruct (mountedRef w) eqn:Hm.
  - rewrite (dispatch_attached _ _ _ Hm).
    destruct (asyncReducer (heap w) (state w) a); simpl; [| discriminate].
    intros [= <-]. simpl. by rewrite Hm.
  - rewrite (dispatch_detached _ _ _ Hm). intros [= <-]. simpl. by rewrite Hm.
Qed.

Lemma dispatch_recognized (c : nat) (a : Obj) (w : World) :
  recognized a ->
  exists w',
    dispatch c a w = Ok w'
    /\ (mountedRef w = true ->
        asyncReducer (heap w) (state w) a = Ok (state w')
        /\ raw_calls w' = raw_calls w ++ [a])
    /\ (mountedRef w = false ->
        state w' = state w /\ raw_calls w' = raw_calls w).
Proof.
  intros Ha. destruct (mountedRef w) eqn:Hm.
  - rewrite (dispatch_attached _ _ _ Hm).
    destruct (reducer_recognized (heap w) (state w) a Ha) as (s & Hs & _).
    rewrite Hs. simpl. eexists; split; [reflexivity |]. simpl.
    split; [done | discriminate].
  - rewrite (dispatch_detached _ _ _ Hm). eexists; split; [reflexivity |].
    simpl. split; [discriminate | done].
Qed.

Lemma then_frame (p : pid) (c : nat) (w : World) :
  state (then_ p c w) = state w /\ raw_calls (then_ p c w) = raw_calls w
  /\ mountedRef (then_ p c w) = mountedRef w /\ heap (then_ p c w) = heap w
  /\ log (then_ p c w) = log w /\ timers (then_ p c w) = timers w
  /\ promises (then_ p c w) = promises w /\ calls (then_ p c w) = calls w.
Proof. unfold then_. destruct (promises w !! p) as [[d | l] |]; done. Qed.

Lemma settle_frame (p : pid) (o : Settled) (w : World) :
  state (settle p o w) = state w /\ raw_calls (settle p o w) = raw_calls w
  /\ mountedRef (settle p o w) = mountedRef w /\ heap (settle p o w) = heap w
  /\ log (settle p o w) = log w /\ timers (settle p o w) = timers w
  /\ calls (settle p o w) = calls w.
Proof. unfold settle. destruct (promises w !! p); done. Qed.

(** [run] never throws, and always logs one dispatch: the ['pending'] one. *)
Lemma run_ok (p : pid) (w : World) :
  exists w1,
    dispatch (calls w) pending_action (set_calls (S (calls w)) w) = Ok w1
    /\ run p w = Ok (then_ p (calls w) w1)
    /\ (mountedRef w = true ->
        state w1 = {[ "status" := VStr "pending" ]}
        /\ raw_calls w1 = raw_calls w ++ [pending_action])
    /\ (mountedRef w = false ->
        state w1 = state w /\ raw_calls w1 = raw_calls w).
Proof.
  destruct (dispatch_recognized (calls w) pending_action
              (set_calls (S (calls w)) w) pending_recognized)
    as (w1 & Hd & Hon & Hoff).
  exists w1. split; [done |]. split.
  - unfold run. fold pending_action. by rewrite Hd.
  - split; [| exact Hoff]. intros Hm. destruct (Hon Hm) as [Hr Hc].
    split; [| exact Hc].
    rewrite (reducer_pending _ _ pending_action eq_refl) in Hr.
    by injection Hr.
Qed.

Lemma exec_detached (f : SourceFile) (j : Job) (w : World) :
  mountedRef w = false ->
  exists w',
    exec f j w = Ok w' /\ state w' = state w /\ raw_calls w' = raw_calls w
    /\ mountedRef w' = false.
Proof.
  intros Hm. destruct j as [c d | c l | c d]; simpl.
  - destruct f.
    + rewrite (dispatch_detached _ _ _ Hm). by eexists.
    + by eexists.
  - rewrite dispatch_detached by done. by eexists.
  - rewrite (dispatch_detached _ _ _ Hm). by eexists.
Qed.

Lemma step_detached (f : SourceFile) (s : Step) (w : World) :
  s <> Attach ->
  mountedRef w = false ->
  exists w',
    step f s w = Ok w' /\ state w' = state w /\ raw_calls w' = raw_calls w
    /\ mountedRef w' = false.
Proof.
  intros Hs Hm. destruct s as [| | p | p o | | i]; simpl.
  - done.
  - by eexists.
  - destruct (run_ok p w) as (w1 & Hd & -> & _ & Hoff).
    destruct (Hoff Hm) as [Hst Hrc].
    destruct (dispatch_frame _ _ _ _ Hd) as (_ & Hm1 & _).
    destruct (then_frame p (calls w) w1) as (Ht1 & Ht2 & Ht3 & _).
    eexists; split; [reflexivity |].
    rewrite Ht1, Ht2, Ht3, Hst, Hrc, Hm1. done.
  - destruct (settle_frame p o w) as (H1 & H2 & H3 & _).
    eexists; split; [reflexivity |]. by rewrite H1, H2, H3.
  - destruct (microtasks w) as [| j js]; [by eexists |].
    by apply (exec_detached f j (set_microtasks js w)).
  - destruct (timers w !! i) as [[ms j] |]; [| by eexists].
    by apply (exec_detached f j (set_timers (delete i (timers w)) w)).
Qed.

Lemma steps_detached (f : SourceFile) (ss : list Step) (w : World) :
  Attach ∉ ss ->
  mountedRef w = false ->
  exists w',
    steps f ss w = Ok w' /\ state w' = state w /\ raw_calls w' = raw_calls w
    /\ mountedRef w' = false.
Proof.
  revert w. induction ss as [| s ss IH]; intros w Hss Hm; simpl.
  - by exists w.
  - apply not_elem_of_cons in Hss as [Hs Hss].
    destruct (step_detached f s w) as (w1 & -> & Hst & Hrc & Hm1);
      [congruence | done |]. simpl.
    destruct (IH w1 Hss Hm1) as (w' & -> & Hst' & Hrc' & Hm').
    exists w'. by rewrite Hst', Hrc'.
Qed.

Lemma dispatch_all_detached (cas : list (nat * Obj)) (w : World) :
  mountedRef w = false ->
  exists w',
    dispatch_all cas w = Ok w' /\ state w' = state w
    /\ raw_calls w' = raw_calls w /\ mountedRef w' = false.
Proof.
  revert w. induction cas as [| [c a] cas IH]; intros w Hm; simpl.
  - by exists w.
  - rewrite (dispatch_detached _ _ _ Hm). simpl.
    destruct (IH (set_log (log w ++ [{| by_call := c; action := a |}]) w) Hm)
      as (w' & -> & H1 & H2 & H3).
    by exists w'.
Qed.

(** C1. The dispatcher returned by [useSafeDispatch]: when the flag reads
    false the event is dropped, whatever the wrapped dispatch and whatever
    the event: the call returns normally and the instance is the same, so
    the wrapped dispatch was not called.  When the flag reads true the
    call is the call of the wrapped dispatch.  After a detach no sequence
    of dispatches, and no sequence of later callbacks, timers, settlements
    or [run] calls, changes the lifecycle state or reaches the raw
    dispatch. *)
Theorem safe_dispatch_guard
    (raw : Obj -> World -> Result World) (a : Obj) (w : World) :
  (mountedRef w = false ->
     useSafeDispatch raw a w = Ok w
     /\ (forall cas, exists w',
           dispatch_all cas w = Ok w' /\ state w' = state w
           /\ raw_calls w' = raw_calls w)
     /\ (forall f ss, Attach ∉ ss -> exists w',
           steps f ss w = Ok w' /\ state w' = state w
           /\ raw_calls w' = raw_calls w))
  /\ (mountedRef w = true -> useSafeDispatch raw a w = raw a w).
Proof.
  split.
  - intros Hm. split; [unfold useSafeDispatch; by rewrite Hm |]. split.
    + intros cas.
      destruct (dispatch_all_detached cas w Hm) as (w' & H1 & H2 & H3 & _).
      by exists w'.
    + intros f ss Hss.
      destruct (steps_detached f ss w Hss Hm) as (w' & H1 & H2 & H3 & _).
      by exists w'.
  - intros Hm. unfold useSafeDispatch. by rewrite Hm.
Qed.

Lemma safe_dispatch_guard_witness :
  (useSafeDispatch unsafeDispatch (resolved_action (VPunk punk7)) detached
   = Ok detached
   /\ (forall cas, exists w',
         dispatch_all cas detached = Ok w' /\ state w' = state detached
         /\ raw_calls w' = raw_calls detached)
   /\ (forall f ss, Attach ∉ ss -> exists w',
         steps f ss detached = Ok w' /\ state w' = state detached
         /\ raw_calls w' = raw_calls detached))
  /\ useSafeDispatch unsafeDispatch (resolved_action (VPunk punk7)) attached
     = unsafeDispatch (resolved_action (VPunk punk7)) attached.
Proof.
  split.
  - apply (safe_dispatch_guard unsafeDispatch (resolved_action (VPunk punk7))
             detached).
    reflexivity.
  - apply (safe_dispatch_guard unsafeDispatch (resolved_action (VPunk punk7))
             attached).
    reflexivity.
Defined.

(** ** The callbacks of [run] *)

Lemma steps_app (f : SourceFile) (ss1 ss2 : list Step) (w w1 : World) :
  steps f ss1 w = Ok w1 -> steps f (ss1 ++ ss2) w = steps f ss2 w1.
Proof.
  revert w. induction ss1 as [| s ss1 IH]; intros w; simpl.
  - by intros [= ->].
  - destruct (step f s w); simpl; [apply IH | discriminate].
Qed.

(** [run] on a pending promise, then its settlement: the callback for the
    outcome is the next job, the promise's callbacks being queued in the
    order of their registration. *)
Lemma run_then_settle (f : SourceFile) (p : pid) (o : Settled) (w : World) :
  promises w !! p = None ->
  microtasks w = [] ->
  exists w2 c js,
    steps f [Run p; Settle p o] w = Ok w2
    /\ microtasks w2 = job_of o c :: js
    /\ mountedRef w2 = mountedRef w /\ heap w2 = heap w
    /\ timers w2 = timers w
    /\ (mountedRef w = true -> state w2 = {[ "status" := VStr "pending" ]}).
Proof.
  intros Hp Hq. simpl.
  destruct (run_ok p w) as (w1 & Hd & -> & Hon & _). simpl.
  destruct (dispatch_frame _ _ _ _ Hd)
    as (_ & Hm1 & Hh1 & Hp1 & Hr1 & Hq1 & Ht1 & _).
  simpl in Hm1, Hh1, Hp1, Hr1, Hq1, Ht1.
  unfold then_. rewrite Hp1, Hp. unfold settle. simpl. rewrite Hp1, Hp.
  rewrite Hq1, Hq, Hr1, filter_app, fmap_app. simpl.
  rewrite (filter_cons_True (fun r : pid * nat => r.1 = p)) by done.
  rewrite filter_nil. simpl.
  destruct (_ <$> filter (fun r : pid * nat => r.1 = p) (reactions w))
    as [| j js] eqn:Hmap.
  - eexists _, (calls w), []. split; [reflexivity |]. simpl.
    repeat split; try done. intros Hm. by apply Hon.
  - assert (Hj : exists c, j = job_of o c).
    { destruct (filter (fun r : pid * nat => r.1 = p) (reactions w))
        as [| r rs]; [discriminate |].
      injection Hmap as <- _. by exists r.2. }
    destruct Hj as [c ->].
    eexists _, c, _. split; [reflexivity |]. simpl.
    repeat split; try done. intros Hm. by apply Hon.
Qed.

Lemma exec_rejected (f : SourceFile) (c : nat) (l : loc) (w : World) :
  exists w',
    exec f (OnRejected c l) w = Ok w'
    /\ heap w' = alter (set_message user_message) l (heap w)
    /\ log w' = log w ++ [{| by_call := c; action := rejected_action l |}]
    /\ timers w' = timers w
    /\ (mountedRef w = true -> state w' = {[ "status" := VStr "rejected";
                                              "error" := VErr l ]})
    /\ (mountedRef w = false -> state w' = state w).
Proof.
  simpl. fold (rejected_action l).
  set (w1 := set_heap (alter (set_message user_message) l (heap w)) w).
  destruct (dispatch_recognized c (rejected_action l) w1
              (rejected_recognized l)) as (w' & Hd & Hon & Hoff).
  exists w'. split; [exact Hd |].
  destruct (dispatch_frame _ _ _ _ Hd) as (Hl & _ & Hh & _ & _ & _ & Ht & _).
  split; [exact Hh |]. split; [exact Hl |]. split; [exact Ht |]. split.
  - intros Hm. destruct (Hon Hm) as [Hr _].
    rewrite (reducer_rejected _ _ (rejected_action l) eq_refl) in Hr.
    by injection Hr.
  - intros Hm. by destruct (Hoff Hm).
Qed.

(** C5, as the code has it.  The rejection callback of [run] overwrites the
    message of the [Error] it receives with the fixed string, whatever the
    message was, and never throws.  While the view is mounted the state
    becomes [{ status: 'rejected', error }] with that same [Error]; once
    the view is detached the dispatch is dropped and the state stays as it
    was.  So a [run] call made on a mounted view with a pending promise
    that then rejects ends in the rejected state, its error carrying the
    fixed message. *)
Theorem rejection_carries_user_message
    (f : SourceFile) (c : nat) (p : pid) (l : loc) (e : ErrorObj) (w : World) :
  heap w !! l = Some e ->
  (exists w',
     exec f (OnRejected c l) w = Ok w'
     /\ heap w' !! l = Some {| name := name e; message := user_message |}
     /\ (mountedRef w = true ->
         state w' = {[ "status" := VStr "rejected"; "error" := VErr l ]})
     /\ (mountedRef w = false -> state w' = state w))
  /\ (mountedRef w = true -> promises w !! p = None -> microtasks w = [] ->
      exists w',
        steps f [Run p; Settle p (Rejected l); Microtask] w = Ok w'
        /\ state w' = {[ "status" := VStr "rejected"; "error" := VErr l ]}
        /\ heap w' !! l = Some {| name := name e; message := user_message |}).
Proof.
  intros He. split.
  - destruct (exec_rejected f c l w) as (w' & Hx & Hh & _ & _ & Hon & Hoff).
    exists w'. split; [exact Hx |]. split; [| done].
    rewrite Hh, lookup_alter_eq, He. reflexivity.
  - intros Hm Hp Hq.
    destruct (run_then_settle f p (Rejected l) w Hp Hq)
      as (w2 & c' & js & Hs & Hq2 & Hm2 & Hh2 & _ & _).
    change [Run p; Settle p (Rejected l); Microtask]
      with ([Run p; Settle p (Rejected l)] ++ [Microtask]).
    rewrite (steps_app _ _ _ _ _ Hs). simpl. rewrite Hq2. simpl.
    destruct (exec_rejected f c' l (set_microtasks js w2))
      as (w' & Hx & Hh & _ & _ & Hon & _).
    simpl in Hx. rewrite Hx. simpl. exists w'. split; [done |]. split.
    + apply Hon. simpl. congruence.
    + rewrite Hh. simpl. rewrite Hh2, lookup_alter_eq, He. reflexivity.
Qed.

Lemma rejection_carries_user_message_witness :
  (exists w',
     exec App_tsx (OnRejected 0 0) attached = Ok w'
     /\ heap w' !! 0 = Some {| name := "Error"; message := user_message |}
     /\ state w' = {[ "status" := VStr "rejected"; "error" := VErr 0 ]})
  /\ (exists w',
        steps App_tsx [Run 0; Settle 0 (Rejected 0); Microtask] attached
        = Ok w'
        /\ state w' = {[ "status" := VStr "rejected"; "error" := VErr 0 ]}
        /\ heap w' !! 0
           = Some {| name := "Error"; message := user_message |}).
Proof.
  assert (He : heap attached !! 0 = Some error404) by reflexivity.
  destruct (rejection_carries_user_message App_tsx 0 0 0 error404 attached He)
    as [(w' & H1 & H2 & H3 & _) H4].
  split.
  - exists w'. split; [exact H1 |]. split; [exact H2 |].
    apply H3. reflexivity.
  - apply H4; reflexivity.
Defined.

(** C5 as stated fails once the view is detached: the promise of a [run]
    call rejects after the cleanup of the layout effect has run, and the
    state is still [{ status: 'pending' }]. *)
Lemma rejection_after_detach_is_dropped :
  exists w',
    steps App_tsx [Attach; Run 0; Detach; Settle 0 (Rejected 0); Microtask]
      world0 = Ok w'
    /\ state w' = {[ "status" := VStr "pending" ]}
    /\ get (state w') "status" <> VStr "rejected"
    /\ heap w' !! 0 = Some {| name := "Error"; message := user_message |}.
Proof.
  eexists. split; [vm_compute; reflexivity |].
  split; [reflexivity |]. split; [vm_compute; discriminate | reflexivity].
Qed.

Lemma exec_fulfilled_direct (c : nat) (data : JsVal) (w : World) :
  exists w',
    exec App_tsx (OnFulfilled c data) w = Ok w'
    /\ log w' = log w ++ [{| by_call := c; action := resolved_action data |}]
    /\ timers w' = timers w
    /\ (mountedRef w = true ->
        state w' = {[ "status" := VStr "resolved"; "data" := data ]}).
Proof.
  simpl. fold (resolved_action data).
  destruct (dispatch_recognized c (resolved_action data) w
              (resolved_recognized data)) as (w' & Hd & Hon & _).
  exists w'. split; [exact Hd |].
  destruct (dispatch_frame _ _ _ _ Hd) as (Hl & _ & _ & _ & _ & _ & Ht & _).
  split; [exact Hl |]. split; [exact Ht |].
  intros Hm. destruct (Hon Hm) as [Hr _].
  rewrite (reducer_resolved _ _ (resolved_action data) eq_refl) in Hr.
  by injection Hr.
Qed.

Lemma run_timers (p : pid) (w : World) :
  exists w', run p w = Ok w' /\ timers w' = timers w.
Proof.
  destruct (run_ok p w) as (w1 & Hd & -> & _).
  eexists; split; [reflexivity |].
  destruct (dispatch_frame _ _ _ _ Hd) as (_ & _ & _ & _ & _ & _ & Ht & _).
  destruct (then_frame p (calls w) w1) as (_ & _ & _ & _ & _ & Ht' & _).
  by rewrite Ht', Ht.
Qed.

(** C7, as the code has it.  In [src/App.tsx] the fulfilment callback of
    [run] dispatches ['resolved'] itself and sets no timer; in the second
    copy of the file it dispatches nothing and changes no state: it sets a
    timer of 2000 ms whose callback makes the dispatch.  In both copies
    [run] and the rejection callback set no timer. *)
Theorem fulfilment_dispatch_timing (c : nat) (data : JsVal) (w : World) :
  (exists w',
     exec App_tsx (OnFulfilled c data) w = Ok w'
     /\ exec App_tsx (OnFulfilled c data) w
        = dispatch c (resolved_action data) w
     /\ log w' = log w ++ [{| by_call := c; action := resolved_action data |}]
     /\ timers w' = timers w)
  /\ (exists w',
        exec part_000 (OnFulfilled c data) w = Ok w'
        /\ log w' = log w /\ state w' = state w
        /\ raw_calls w' = raw_calls w
        /\ timers w' = timers w ++ [(2000, OnTimeout c data)]
        /\ exec part_000 (OnTimeout c data) w'
           = dispatch c (resolved_action data) w')
  /\ (forall p, exists w', run p w = Ok w' /\ timers w' = timers w)
  /\ (forall f l, exists w',
        exec f (OnRejected c l) w = Ok w' /\ timers w' = timers w).
Proof.
  split; [| split; [| split]].
  - destruct (exec_fulfilled_direct c data w) as (w' & Hx & Hl & Ht & _).
    exists w'. by repeat split.
  - eexists. split; [reflexivity |]. by repeat split.
  - intros p. apply run_timers.
  - intros f l.
    destruct (exec_rejected f c l w) as (w' & Hx & _ & _ & Ht & _).
    by exists w'.
Qed.

(** C7 as stated fails on the second copy of the file: after the promise of
    a [run] call has been fulfilled and its callback has run, no
    ['resolved'] dispatch has been made and the state is still
    [{ status: 'pending' }]; the dispatch waits behind a 2000 ms timer. *)
Lemma fulfilment_is_deferred_in_second_copy :
  exists w',
    steps part_000 [Attach; Run 0; Settle 0 (Fulfilled (VPunk punk7)); Microtask]
      world0 = Ok w'
    /\ state w' = {[ "status" := VStr "pending" ]}
    /\ log w' = [started_entry 0]
    /\ microtasks w' = []
    /\ timers w' = [(2000, OnTimeout 0 (VPunk punk7))].
Proof.
  eexists. split; [vm_compute; reflexivity |]. by repeat split.
Qed.

(** ** The order of the dispatches of a [run] call *)

Lemma started_first_init (st : Obj) (h : Heap) : started_first (init st h).
Proof.
  repeat split; simpl; intros x Hx; try by apply elem_of_nil in Hx.
  done.
Qed.

(** A dispatch keeps the order, provided the dispatch of a settlement is
    made for a call whose ['pending'] dispatch is in the log. *)
Lemma started_first_dispatch (c : nat) (a : Obj) (w w' : World) :
  started_first w ->
  (is_settlement {| by_call := c; action := a |} = true ->
   started_entry c ∈ log w) ->
  dispatch c a w = Ok w' ->
  started_first w'.
Proof.
  intros (Hr & Hq & Ht & Hl) Hc Hd.
  destruct (dispatch_frame _ _ _ _ Hd)
    as (Hlog & _ & _ & _ & Hr' & Hq' & Ht' & _).
  assert (Hsub : forall e, e ∈ log w -> e ∈ log w').
  { intros e He. rewrite Hlog. apply elem_of_app. by left. }
  unfold started_first. rewrite Hr', Hq', Ht'.
  split; [by intros r Hin; apply Hsub, Hr |].
  split; [by intros j Hin; apply Hsub, Hq |].
  split; [by intros t Hin; apply Hsub, Ht |].
  intros i e Hi Hs. rewrite Hlog in Hi. rewrite Hlog.
  destruct (decide (i < length (log w))) as [Hlt | Hge].
  - rewrite lookup_app_l in Hi by done.
    destruct (Hl i e Hi Hs) as (j & Hj & Hje).
    exists j. split; [done |]. rewrite lookup_app_l; [done | lia].
  - rewrite lookup_app_r in Hi by lia.
    destruct (i - length (log w)) as [| n] eqn:Hn; [| done].
    injection Hi as <-. apply Hc in Hs.
    apply list_elem_of_lookup in Hs as [j Hj].
    pose proof (lookup_lt_Some _ _ _ Hj) as Hlt.
    exists j. split; [lia |]. simpl. by rewrite lookup_app_l.
Qed.

Lemma started_first_then (p : pid) (c : nat) (w : World) :
  started_first w -> started_entry c ∈ log w -> started_first (then_ p c w).
Proof.
  intros (Hr & Hq & Ht & Hl) Hc. unfold then_.
  destruct (promises w !! p) as [[d | l] |]; repeat split; simpl;
    try done; intros x Hx; apply elem_of_app in Hx as [Hx | Hx];
    try (by apply Hr); try (by apply Hq);
    apply list_elem_of_singleton in Hx as ->; exact Hc.
Qed.

Lemma job_of_call (o : Settled) (c : nat) : job_call (job_of o c) = c.
Proof. by destruct o. Qed.

Lemma started_first_settle (p : pid) (o : Settled) (w : World) :
  started_first w -> started_first (settle p o w).
Proof.
  intros (Hr & Hq & Ht & Hl). unfold settle.
  destruct (promises w !! p); [done |]. repeat split; simpl; try done.
  - intros r Hin. apply list_elem_of_filter in Hin as [_ Hin]. by apply Hr.
  - intros j Hin. apply elem_of_app in Hin as [Hin | Hin]; [by apply Hq |].
    apply list_elem_of_fmap in Hin as (r & -> & Hin).
    apply list_elem_of_filter in Hin as [_ Hin].
    rewrite job_of_call. by apply Hr.
Qed.

Section Order.

Variable f : SourceFile.

(** A callback of a call whose ['pending'] dispatch is in the log runs
    without a throw and keeps the order. *)
Lemma started_first_exec (j : Job) (w : World) :
  started_first w ->
  started_entry (job_call j) ∈ log w ->
  exists w', exec f j w = Ok w' /\ started_first w'.
Proof.
  intros Hw Hc. destruct j as [c d | c l | c d]; simpl in Hc; simpl.
  - destruct f.
    + destruct (dispatch_recognized c (resolved_action d) w)
        as (w' & Hd & _); [auto with actions |].
      exists w'. split; [exact Hd |].
      by apply (started_first_dispatch c (resolved_action d) w).
    + eexists; split; [reflexivity |].
      destruct Hw as (Hr & Hq & Ht & Hl). repeat split; simpl; try done.
      intros t Hin. apply elem_of_app in Hin as [Hin | Hin]; [by apply Ht |].
      by apply list_elem_of_singleton in Hin as ->.
  - set (w1 := set_heap (alter (set_message user_message) l (heap w)) w).
    destruct (dispatch_recognized c (rejected_action l) w1)
      as (w' & Hd & _); [auto with actions |].
    exists w'. split; [exact Hd |].
    by apply (started_first_dispatch c (rejected_action l) w1).
  - destruct (dispatch_recognized c (resolved_action d) w)
      as (w' & Hd & _); [auto with actions |].
    exists w'. split; [exact Hd |].
    by apply (started_first_dispatch c (resolved_action d) w).
Qed.

Lemma started_first_run (p : pid) (w : World) :
  started_first w -> exists w', run p w = Ok w' /\ started_first w'.
Proof.
  intros Hw. destruct (run_ok p w) as (w1 & Hd & -> & _).
  eexists; split; [reflexivity |].
  assert (Hw1 : started_first w1).
  { apply (started_first_dispatch (calls w) pending_action
             (set_calls (S (calls w)) w) w1);
      [exact Hw | intros Hs; vm_compute in Hs; discriminate | exact Hd]. }
  apply started_first_then; [exact Hw1 |].
  destruct (dispatch_frame _ _ _ _ Hd) as (-> & _).
  apply elem_of_app. right. by apply list_elem_of_singleton.
Qed.

Lemma started_first_step (s : Step) (w : World) :
  started_first w -> exists w', step f s w = Ok w' /\ started_first w'.
Proof.
  intros Hw. destruct s as [| | p | p o | | i]; simpl.
  - by eexists.
  - by eexists.
  - by apply started_first_run.
  - eexists; split; [reflexivity |]. by apply started_first_settle.
  - destruct (microtasks w) as [| j js] eqn:Hq; [by eexists |].
    destruct Hw as (Hr & Hq' & Ht & Hl).
    apply started_first_exec.
    + repeat split; simpl; try done.
      intros j' Hin. apply Hq'. rewrite Hq. by right.
    + simpl. apply Hq'. rewrite Hq. by left.
  - destruct (timers w !! i) as [[ms j] |] eqn:Hi; [| by eexists].
    destruct Hw as (Hr & Hq & Ht & Hl).
    apply started_first_exec.
    + repeat split; simpl; try done.
      intros t Hin. by apply Ht, (list_elem_of_delete_inv _ i).
    + simpl. apply (Ht (ms, j)). by apply list_elem_of_lookup_2 with i.
Qed.

(** No sequence of events makes the instance throw, and the order holds
    all along. *)
Lemma started_first_steps (ss : list Step) (w : World) :
  started_first w -> exists w', steps f ss w = Ok w' /\ started_first w'.
Proof.
  revert w. induction ss as [| s ss IH]; intros w Hw; simpl.
  - by exists w.
  - destruct (started_first_step s w Hw) as (w1 & -> & Hw1). simpl.
    by apply IH.
Qed.


End Order.




(** ** PunkInfo *)

Lemma truthy_nonempty (s : string) : s <> "" -> truthy s = true.
Proof.
  intros H. unfold truthy. apply negb_true_iff. by apply String.eqb_neq.
Qed.

(** C9. With the empty identifier [PunkInfo] returns the empty paragraph
    in every state.  With an identifier, the pending state gives the
    fallback card, which shows the number it is given and constants for
    everything else, and the rejected state is not rendered: the error of
    the state is thrown. *)
Theorem punkinfo_branches (st : Obj) (punkNumber number : string) :
  PunkInfo st "" number = Ok Paragraph
  /\ (punkNumber <> "" -> get st "status" = VStr "pending" ->
      PunkInfo st punkNumber number = Ok (PunkCardFallbackEl number)
      /\ forall ref,
           let '(_, (n, punk)) := PunkCardFallback ref number in
           n = number
           /\ punk = {| number := default number ref; type := "XXXXX";
                        image := "/default.PNG";
                        accessories := ["loading..."] |}
           /\ ValidPunkCard punk n
              = {| href := "https://www.larvalabs.com/cryptopunks/details/"
                           +:+ number;
                   img_src := "/default.PNG"; img_alt := "XXXXX";
                   punk_text := number; type_text := "XXXXX";
                   accessory_items := ["loading..."] |})
  /\ (punkNumber <> "" -> get st "status" = VStr "rejected" ->
      PunkInfo st punkNumber number = Throw (ThrowVal (get st "error"))).
Proof.
  split; [| split].
  - unfold PunkInfo. simpl. by rewrite orb_true_r.
  - intros Hn Hs. split.
    + unfold PunkInfo. rewrite Hs, (truthy_nonempty _ Hn). reflexivity.
    + intros ref. simpl. done.
  - intros Hn Hs. unfold PunkInfo. rewrite Hs, (truthy_nonempty _ Hn).
    reflexivity.
Qed.

Lemma punkinfo_branches_witness :
  PunkInfo (state rejected_world) "" "" = Ok Paragraph
  /\ PunkInfo {[ "status" := VStr "pending" ]} "007" "007"
     = Ok (PunkCardFallbackEl "007")
  /\ PunkInfo (state rejected_world) "007" "007" = Throw (ThrowVal (VErr 0)).
Proof.
  split; [| split].
  - apply (punkinfo_branches (state rejected_world) "" "").
  - apply (punkinfo_branches {[ "status" := VStr "pending" ]} "007" "007");
      [discriminate | reflexivity].
  - apply (punkinfo_branches (state rejected_world) "007" "007");
      [discriminate | reflexivity].
Defined.

(** ** PunkForm *)

Local Open Scope Z_scope.

Lemma pad_three_digits (n : Z) :
  0 <= n < 100 ->
  three_digits_of n
    (if (n <? 100) && (n >=? 10) then "0" +:+ number_template n
     else "00" +:+ number_template n) = true.
Proof.
  intros Hn.
  assert (Hall : forallb (fun k : nat =>
            let n := Z.of_nat k in
            three_digits_of n
              (if (n <? 100) && (n >=? 10) then "0" +:+ number_template n
               else "00" +:+ number_template n)) (seq 0 100) = true)
    by (vm_compute; reflexivity).
  rewrite forallb_forall in Hall.
  specialize (Hall (Z.to_nat n)). rewrite Z2Nat.id in Hall by lia.
  apply Hall, in_seq. lia.
Qed.

Lemma three_digits_of_spec (n : Z) (s : string) :
  three_digits_of n s = true ->
  String.length s = 3%nat /\ all_digits s = true /\ parseInt s = Some n.
Proof.
  unfold three_digits_of. intros H.
  apply andb_prop in H as [H H3]. apply andb_prop in H as [H1 H2].
  split; [by apply Nat.eqb_eq |]. split; [done |].
  destruct (parseInt s) as [m |]; [| discriminate].
  apply Z.eqb_eq in H3. by subst.
Qed.

(** [slice(0, n)] is the prefix of length [n], or the whole string when it
    is shorter. *)
Lemma slice0_prefix (n : nat) (s : string) :
  exists rest,
    s = slice0 n s +:+ rest
    /\ String.length (slice0 n s) = Nat.min n (String.length s).
Proof.
  revert n. induction s as [| c s IH]; intros n.
  - exists "". by destruct n.
  - destruct n as [| n]; [by exists (String c s) |].
    destruct (IH n) as (rest & Hs & Hl). exists rest. unfold slice0 in *.
    split.
    + change (String c s = String c (String.substring 0 n s +:+ rest)).
      by rewrite <- Hs.
    + change (S (String.length (String.substring 0 n s))
              = S (Nat.min n (String.length s))).
      by rewrite Hl.
Qed.

Lemma digit_value_range (radix : Z) (c : ascii) (d : Z) :
  digit_value radix c = Some d -> 0 <= d < radix.
Proof.
  unfold digit_value. set (n := Z.of_nat (nat_of_ascii c)).
  destruct ((48 <=? n) && (n <=? 57)) eqn:H1;
    [| destruct ((97 <=? n) && (n <=? 122)) eqn:H2;
       [| destruct ((65 <=? n) && (n <=? 90)) eqn:H3; [| discriminate]]].
  all: match goal with
       | |- context [?x <? ?r] => destruct (Z.ltb_spec x r)
       end; [| discriminate].
  all: intros [= <-]; lia.
Qed.

Lemma digits_bound (radix : Z) (s : string) (acc : option Z) (n : Z) :
  0 < radix <= 16 ->
  0 <= default 0 acc ->
  digits radix s acc = Some n ->
  0 <= n < (default 0 acc + 1) * 16 ^ Z.of_nat (String.length s).
Proof.
  intros Hr. revert acc.
  induction s as [| c s IH]; intros acc Ha; cbn [digits String.length].
  - intros ->. cbn [from_option id] in *. change (16 ^ Z.of_nat 0) with 1. lia.
  - assert (Hpow : 0 < 16 ^ Z.of_nat (String.length s))
      by (apply Z.pow_pos_nonneg; lia).
    rewrite Nat2Z.inj_succ, Z.pow_succ_r by lia.
    destruct (digit_value radix c) as [d |] eqn:Hd.
    + intros H. apply digit_value_range in Hd.
      apply IH in H; cbn [from_option id] in *; nia.
    + intros ->. cbn [from_option id] in *. nia.
Qed.

Lemma trim_start_length (s : string) :
  (String.length (trim_start s) <= String.length s)%nat.
Proof.
  induction s as [| c s IH]; simpl; [lia |].
  destruct (is_white_space c); simpl; lia.
Qed.

(** A string that parses to more than 9999 has four characters at least. *)
Lemma parseInt_large_length (s : string) (n : Z) :
  parseInt s = Some n -> n > 9999 -> (4 <= String.length s)%nat.
Proof.
  unfold parseInt. pose proof (trim_start_length s) as Ht.
  set (s1 := trim_start s) in *. clearbody s1.
  intros H Hn.
  assert (Hgen : forall sign radix s3 m,
            (sign = 1 \/ sign = -1) -> 0 < radix <= 16 ->
            (String.length s3 <= String.length s1)%nat ->
            digits radix s3 None = Some m -> sign * m > 9999 ->
            (4 <= String.length s1)%nat).
  { intros sign radix s3 m Hs Hr Hl Hd Hm.
    apply digits_bound in Hd; [| done | simpl; lia]. simpl in Hd.
    destruct (decide (String.length s3 <= 3)%nat) as [Hle | Hgt]; [| lia].
    assert (16 ^ Z.of_nat (String.length s3) <= 16 ^ 3)
      by (apply Z.pow_le_mono_r; lia).
    lia. }
  assert (Hprefix : forall sign s2,
            (sign = 1 \/ sign = -1) ->
            (String.length s2 <= String.length s1)%nat ->
            (let '(radix, s3) :=
               match s2 with
               | String "0"%char (String "x"%char r) => (16, r)
               | String "0"%char (String "X"%char r) => (16, r)
               | _ => (10, s2)
               end in
             match digits radix s3 None with
             | Some m => Some (sign * m)
             | None => None
             end) = Some n ->
            (4 <= String.length s1)%nat).
  { intros sign s2 Hs Hl Hp.
    match type of Hp with
    | (let '(_, _) := ?sel in _) = _ => destruct sel as [radix s3] eqn:Hsel
    end.
    destruct (digits radix s3 None) as [m |] eqn:Hd; [| discriminate].
    injection Hp as <-.
    apply (Hgen sign radix s3 m); try done.
    - repeat (match type of Hsel with
              | context [match ?x with _ => _ end] => destruct x
              end; try (injection Hsel as <- <-; lia)).
    - repeat (match type of Hsel with
              | context [match ?x with _ => _ end] => destruct x
              end; try (injection Hsel as <- <-; simpl in *; lia)). }
  cut (4 <= String.length s1)%nat; [lia |].
  match type of H with
  | (let '(_, _) := ?sel in _) = _ => destruct sel as [sign s2] eqn:Hsel
  end.
  apply (Hprefix sign s2); [| | exact H].
  - repeat (match type of Hsel with
            | context [match ?x with _ => _ end] => destruct x
            end; try (injection Hsel as <- <-; lia)).
  - repeat (match type of Hsel with
            | context [match ?x with _ => _ end] => destruct x
            end; try (injection Hsel as <- <-; simpl in *; lia)).
Qed.

Lemma handleSubmit_unfold (f : SourceFile) (punkName : string) (n : Z) :
  parseInt punkName = Some n ->
  handleSubmit f punkName
  = PreventDefault ::
    (if (n <? 100) && (n >=? 10) then [OnSubmit ("0" +:+ number_template n)]
     else if (n <? 10) && (n >=? 0) then
       [OnSubmit ("00" +:+ number_template n)]
     else match f with
          | App_tsx =>
              if n >? 9999 then [OnSubmit (slice0 4 punkName)]
              else [OnSubmit punkName]
          | part_000 => [OnSubmit punkName]
          end).
Proof. intros H. unfold handleSubmit. by rewrite H. Qed.

Ltac case_bounds :=
  repeat match goal with
         | |- context [?x <? ?y] => destruct (Z.ltb_spec x y)
         | |- context [?x >=? ?y] =>
             rewrite (Z.geb_leb x y); destruct (Z.leb_spec y x)
         | |- context [?x >? ?y] =>
             rewrite (Z.gtb_ltb x y); destruct (Z.ltb_spec y x)
         end; cbn [andb]; try lia.

(** C8, as the code has it.  [handleSubmit] never calls [onSubmit] when
    [parseInt] of the input is [NaN].  A parsed value from 0 to 99 is
    submitted as its decimal numeral padded with zeros to three digits.  A
    parsed value above 9999 is submitted as the first four characters of
    the input in [src/App.tsx], and as the input unchanged in the second
    copy of the file, which has no such case.  Every other input is
    submitted unchanged. *)
Theorem handleSubmit_normalizes (f : SourceFile) (punkName : string) :
  (parseInt punkName = None -> handleSubmit f punkName = [PreventDefault])
  /\ (forall n, parseInt punkName = Some n -> 0 <= n < 100 ->
      exists s,
        handleSubmit f punkName = [PreventDefault; OnSubmit s]
        /\ String.length s = 3%nat /\ all_digits s = true
        /\ parseInt s = Some n)
  /\ (forall n, parseInt punkName = Some n -> n > 9999 ->
      match f with
      | App_tsx =>
          handleSubmit f punkName
          = [PreventDefault; OnSubmit (slice0 4 punkName)]
          /\ String.length (slice0 4 punkName) = 4%nat
          /\ exists rest, punkName = slice0 4 punkName +:+ rest
      | part_000 =>
          handleSubmit f punkName = [PreventDefault; OnSubmit punkName]
      end)
  /\ (forall n, parseInt punkName = Some n -> n < 0 \/ 100 <= n <= 9999 ->
      handleSubmit f punkName = [PreventDefault; OnSubmit punkName]).
Proof.
  split; [| split; [| split]].
  - intros H. unfold handleSubmit. by rewrite H.
  - intros n H Hn. rewrite (handleSubmit_unfold f _ n H).
    pose proof (three_digits_of_spec _ _ (pad_three_digits n Hn)) as Hpad.
    revert Hpad. case_bounds; intros Hpad; eexists; split; try reflexivity;
      exact Hpad.
  - intros n H Hn. rewrite (handleSubmit_unfold f _ n H).
    destruct f.
    + split; [by case_bounds |].
      destruct (slice0_prefix 4 punkName) as (rest & Hs & Hl).
      pose proof (parseInt_large_length _ _ H Hn).
      split; [lia | by exists rest].
    + by case_bounds.
  - intros n H Hn. rewrite (handleSubmit_unfold f _ n H).
    destruct f; by case_bounds.
Qed.

Lemma handleSubmit_normalizes_witness :
  handleSubmit App_tsx "abc" = [PreventDefault]
  /\ (exists s,
        handleSubmit App_tsx "7" = [PreventDefault; OnSubmit s]
        /\ String.length s = 3%nat /\ all_digits s = true
        /\ parseInt s = Some 7)
  /\ (handleSubmit App_tsx "99999"
      = [PreventDefault; OnSubmit (slice0 4 "99999")]
      /\ String.length (slice0 4 "99999") = 4%nat
      /\ exists rest, "99999" = slice0 4 "99999" +:+ rest)
  /\ handleSubmit part_000 "99999" = [PreventDefault; OnSubmit "99999"]
  /\ handleSubmit App_tsx "1234" = [PreventDefault; OnSubmit "1234"].
Proof.
  split; [| split; [| split; [| split]]].
  - apply (handleSubmit_normalizes App_tsx "abc"). reflexivity.
  - apply (handleSubmit_normalizes App_tsx "7" ); [reflexivity | lia].
  - apply (proj1 (proj2 (proj2 (handleSubmit_normalizes App_tsx "99999")))
             99999); [reflexivity | lia].
  - apply (proj1 (proj2 (proj2 (handleSubmit_normalizes part_000 "99999")))
             99999); [reflexivity | lia].
  - apply (proj2 (proj2 (proj2 (handleSubmit_normalizes App_tsx "1234")))
             1234); [reflexivity | lia].
Defined.

(** C8 as stated fails on the second copy of the file: ["99999"] parses to
    99999, above 9999, and is submitted whole, not as ["9999"]. *)
Lemma large_number_not_truncated_in_second_copy :
  parseInt "99999" = Some 99999
  /\ handleSubmit part_000 "99999" = [PreventDefault; OnSubmit "99999"]
  /\ handleSubmit part_000 "99999"
     <> [PreventDefault; OnSubmit (slice0 4 "99999")].
Proof. split; [reflexivity |]. split; [reflexivity | discriminate]. Qed.

(** C10. An input that parses to a negative integer is submitted as it
    is, in both copies of the file: it is neither padded, nor cut, nor
    refused.  [App] takes it as its [punkNumber], whatever that was; the
    effect of [PunkInfo] then calls [run], and the address [fetchPunk]
    requests ends in the raw input. *)
Theorem negative_input_submitted_unchanged
    (f : SourceFile) (punkName : string) (n : Z) (punkNumber : string)
    (p : pid) (w : World) :
  parseInt punkName = Some n ->
  n < 0 ->
  handleSubmit f punkName = [PreventDefault; OnSubmit punkName]
  /\ App_after (handleSubmit f punkName) punkNumber = punkName
  /\ PunkInfo_effect (App_after (handleSubmit f punkName) punkNumber) p w
     = run p w
  /\ fetchPunk_url (App_after (handleSubmit f punkName) punkNumber)
     = "https://cryptopunks.herokuapp.com/api/punks/" +:+ punkName.
Proof.
  intros H Hn.
  assert (Hs : handleSubmit f punkName = [PreventDefault; OnSubmit punkName]).
  { rewrite (handleSubmit_unfold f _ n H). destruct f; by case_bounds. }
  assert (Hne : punkName <> "") by (intros ->; discriminate).
  rewrite Hs. split; [done |]. split; [done |]. split; [| done].
  unfold PunkInfo_effect, App_after, App_handleSubmit. simpl.
  by rewrite (truthy_nonempty _ Hne).
Qed.

Lemma negative_input_submitted_unchanged_witness :
  (handleSubmit App_tsx "-5" = [PreventDefault; OnSubmit "-5"]
   /\ App_after (handleSubmit App_tsx "-5") "007" = "-5"
   /\ PunkInfo_effect (App_after (handleSubmit App_tsx "-5") "007") 1%nat attached
      = run 1%nat attached
   /\ fetchPunk_url (App_after (handleSubmit App_tsx "-5") "007")
      = "https://cryptopunks.herokuapp.com/api/punks/" +:+ "-5")
  /\ (handleSubmit part_000 "-5" = [PreventDefault; OnSubmit "-5"]
      /\ App_after (handleSubmit part_000 "-5") "007" = "-5"
      /\ PunkInfo_effect (App_after (handleSubmit part_000 "-5") "007") 1%nat
           attached
         = run 1%nat attached
      /\ fetchPunk_url (App_after (handleSubmit part_000 "-5") "007")
         = "https://cryptopunks.herokuapp.com/api/punks/" +:+ "-5").
Proof.
  split;
    apply (negative_input_submitted_unchanged _ "-5" (-5) "007" 1%nat attached);
    first [reflexivity | lia].
Defined.

Local Close Scope Z_scope.

(** * Further properties *)

(** ** The form and [App] *)

Local Open Scope Z_scope.

Lemma parseInt_empty : parseInt "" = None.
Proof. reflexivity. Qed.

(** X1. A submit calls [onSubmit] at most once, after [preventDefault],
    and never with the empty string: either the input does not parse and
    the [punkNumber] of [App] stays as it was, or it becomes the one,
    non-empty, submitted value.  Only [handleReset] empties it. *)
Theorem submit_never_empties (f : SourceFile) (punkName punkNumber : string) :
  (parseInt punkName = None
   /\ handleSubmit f punkName = [PreventDefault]
   /\ App_after (handleSubmit f punkName) punkNumber = punkNumber)
  \/ (exists v,
       handleSubmit f punkName = [PreventDefault; OnSubmit v]
       /\ v <> ""
       /\ App_after (handleSubmit f punkName) punkNumber = v).
Proof.
  destruct (parseInt punkName) as [n |] eqn:Hp.
  - right. rewrite (handleSubmit_unfold f _ n Hp).
    assert (Hne : punkName <> "") by (intros ->; discriminate).
    destruct ((n <? 100) && (n >=? 10)); [by eexists |].
    destruct ((n <? 10) && (n >=? 0)); [by eexists |].
    destruct f; [| by eexists].
    destruct (Z.gtb_spec n 9999) as [Hn | Hn]; [| by eexists].
    eexists. split; [reflexivity |]. split; [| reflexivity].
    destruct (slice0_prefix 4 punkName) as (rest & _ & Hl).
    pose proof (parseInt_large_length _ _ Hp ltac:(lia)).
    intros Hs. rewrite Hs in Hl.
    change (String.length "") with 0%nat in Hl. lia.
  - left. unfold handleSubmit. by rewrite Hp.
Qed.

(** X2. What a submit hands over is stable: when the parsed value is at
    most 9999, and for every input in the second copy of the file,
    submitting the submitted string again hands over the same string. *)
Theorem resubmit_same (f : SourceFile) (punkName : string) (n : Z) :
  parseInt punkName = Some n ->
  f = part_000 \/ n <= 9999 ->
  exists v,
    handleSubmit f punkName = [PreventDefault; OnSubmit v]
    /\ handleSubmit f v = [PreventDefault; OnSubmit v].
Proof.
  intros Hp Hf.
  destruct (decide (0 <= n < 100)) as [Hn | Hn].
  - pose proof (three_digits_of_spec _ _ (pad_three_digits n Hn))
      as (_ & _ & Hv).
    eexists. rewrite (handleSubmit_unfold f _ n Hp).
    rewrite (handleSubmit_unfold f _ n Hv).
    revert Hv. case_bounds; intros Hv; split; reflexivity.
  - exists punkName.
    assert (H : handleSubmit f punkName = [PreventDefault; OnSubmit punkName]).
    { rewrite (handleSubmit_unfold f _ n Hp).
      destruct Hf as [-> | Hf]; [by case_bounds |].
      destruct f; by case_bounds. }
    by split.
Qed.

Lemma resubmit_same_witness :
  (exists v,
     handleSubmit App_tsx "7" = [PreventDefault; OnSubmit v]
     /\ handleSubmit App_tsx v = [PreventDefault; OnSubmit v])
  /\ (exists v,
       handleSubmit part_000 "99999" = [PreventDefault; OnSubmit v]
       /\ handleSubmit part_000 v = [PreventDefault; OnSubmit v]).
Proof.
  split.
  - apply (resubmit_same App_tsx "7" 7); [reflexivity | right; lia].
  - apply (resubmit_same part_000 "99999" 99999); [reflexivity | by left].
Defined.

Lemma digit_char_value (c : ascii) :
  Nat.leb 48 (nat_of_ascii c) && Nat.leb (nat_of_ascii c) 57 = true ->
  is_white_space c = false
  /\ exists d, digit_value 10 c = Some d /\ 0 <= d < 10.
Proof.
  destruct c as [[] [] [] [] [] [] [] []]; intros H;
    try (vm_compute in H; discriminate H);
    (split; [reflexivity | eexists; split; [vm_compute; reflexivity | lia]]).
Qed.

(** On a string of decimal digits [parseInt] reads all of it in radix 10. *)
Lemma parseInt_all_digits (s : string) :
  all_digits s = true ->
  parseInt s = match digits 10 s None with
               | Some n => Some (1 * n)
               | None => None
               end.
Proof.
  destruct s as [| c r]; [reflexivity |]. cbn [all_digits]. intros H.
  apply andb_prop in H as [Hc Hr].
  destruct c as [[] [] [] [] [] [] [] []];
    try (vm_compute in Hc; discriminate Hc); try reflexivity.
  destruct r as [| c2 r]; [reflexivity |]. cbn [all_digits] in Hr.
  apply andb_prop in Hr as [Hc2 _].
  destruct c2 as [[] [] [] [] [] [] [] []];
    try (vm_compute in Hc2; discriminate Hc2); reflexivity.
Qed.

Lemma digits_all_digits (s : string) (acc : option Z) :
  all_digits s = true ->
  0 <= default 0 acc ->
  s <> "" \/ is_Some acc ->
  exists n,
    digits 10 s acc = Some n
    /\ default 0 acc * 10 ^ Z.of_nat (String.length s) <= n
       < (default 0 acc + 1) * 10 ^ Z.of_nat (String.length s).
Proof.
  revert acc. induction s as [| c s IH]; intros acc Hs Ha Hne;
    cbn [digits String.length].
  - destruct Hne as [Hne | [a ->]]; [done |]. exists a. split; [done |].
    cbn [from_option id] in *. change (10 ^ Z.of_nat 0) with 1. lia.
  - cbn [all_digits] in Hs. apply andb_prop in Hs as [Hc Hs].
    destruct (digit_char_value c Hc) as (_ & d & -> & Hd).
    destruct (IH (Some (10 * default 0 acc + d)) Hs) as (n & -> & Hn);
      [cbn [from_option id]; lia | right; by eexists |].
    exists n. split; [done |]. cbn [from_option id] in Hn.
    assert (Hpow : 0 < 10 ^ Z.of_nat (String.length s))
      by (apply Z.pow_pos_nonneg; lia).
    rewrite Nat2Z.inj_succ, Z.pow_succ_r by lia. nia.
Qed.

Lemma parseInt_digits_value (s : string) :
  all_digits s = true ->
  s <> "" ->
  exists n,
    parseInt s = Some n /\ 0 <= n < 10 ^ Z.of_nat (String.length s).
Proof.
  intros Hs Hne. rewrite (parseInt_all_digits s Hs).
  destruct (digits_all_digits s None Hs) as (n & -> & Hn);
    [done | by left |].
  exists n. cbn [from_option id] in Hn. split; [f_equal; lia | lia].
Qed.

Lemma all_digits_slice0 (k : nat) (s : string) :
  all_digits s = true -> all_digits (slice0 k s) = true.
Proof.
  revert k. induction s as [| c s IH]; intros k Hs.
  - by destruct k.
  - destruct k as [| k]; [done |]. cbn [all_digits] in Hs.
    apply andb_prop in Hs as [Hc Hs]. unfold slice0 in *.
    change (all_digits (String c (String.substring 0 k s)) = true).
    cbn [all_digits]. by rewrite Hc, (IH k Hs).
Qed.

(** X3. In [src/App.tsx] a non-empty input of decimal digits is always
    submitted, as a string of at least three decimal digits whose value
    lies between 0 and 9999, the range the form asks for. *)
Theorem digits_submitted_in_range (punkName : string) :
  all_digits punkName = true ->
  punkName <> "" ->
  exists v m,
    handleSubmit App_tsx punkName = [PreventDefault; OnSubmit v]
    /\ all_digits v = true
    /\ (3 <= String.length v)%nat
    /\ parseInt v = Some m /\ 0 <= m <= 9999.
Proof.
  intros Hs Hne.
  destruct (parseInt_digits_value _ Hs Hne) as (n & Hp & Hn).
  rewrite (handleSubmit_unfold App_tsx _ n Hp).
  destruct (decide (n < 100)) as [Hlt | Hge].
  - pose proof (three_digits_of_spec _ _
                  (pad_three_digits n ltac:(lia))) as (Hl & Hd & Hv).
    revert Hl Hd Hv. case_bounds; intros Hl Hd Hv; eexists _, n;
      (split; [reflexivity |]); (split; [exact Hd |]);
      (split; [lia |]); (split; [exact Hv | lia]).
  - destruct (decide (n <= 9999)) as [Hle | Hgt].
    + exists punkName, n. split; [by case_bounds |]. split; [done |].
      split; [| split; [done | lia]].
      destruct (decide (String.length punkName <= 2)%nat) as [Hl | Hl];
        [| lia].
      assert (10 ^ Z.of_nat (String.length punkName) <= 10 ^ 2)
        by (apply Z.pow_le_mono_r; lia).
      lia.
    + destruct (slice0_prefix 4 punkName) as (rest & _ & Hl).
      pose proof (parseInt_large_length _ _ Hp ltac:(lia)) as Hlen.
      assert (Hl4 : String.length (slice0 4 punkName) = 4%nat) by lia.
      destruct (parseInt_digits_value (slice0 4 punkName)) as (m & Hm & Hb).
      { by apply all_digits_slice0. }
      { intros Hnil. rewrite Hnil in Hl4. discriminate. }
      rewrite Hl4 in Hb. change (10 ^ Z.of_nat 4) with 10000 in Hb.
      exists (slice0 4 punkName), m. split; [by case_bounds |].
      split; [by apply all_digits_slice0 |].
      split; [lia |]. split; [done | lia].
Qed.

Lemma digits_submitted_in_range_witness :
  exists v m,
    handleSubmit App_tsx "00012345" = [PreventDefault; OnSubmit v]
    /\ all_digits v = true
    /\ (3 <= String.length v)%nat
    /\ parseInt v = Some m /\ 0 <= m <= 9999.
Proof.
  apply (digits_submitted_in_range "00012345"); [reflexivity | discriminate].
Defined.

Local Close Scope Z_scope.

(** ** What the state can hold *)

Lemma message_fixed_alter (h : Heap) (l l' : loc) :
  message_fixed h l ->
  message_fixed (alter (set_message user_message) l' h) l.
Proof.
  intros H e. destruct (decide (l' = l)) as [-> | Hne].
  - rewrite lookup_alter_eq. destruct (h !! l); [| done]. by intros [= <-].
  - rewrite lookup_alter_ne by done. apply H.
Qed.

Lemma message_fixed_alter_eq (h : Heap) (l : loc) :
  message_fixed (alter (set_message user_message) l h) l.
Proof.
  intros e. rewrite lookup_alter_eq. destruct (h !! l); [| done].
  by intros [= <-].
Qed.

Lemma job_sourced_insert (ps : gmap pid Settled) (p : pid) (o : Settled)
    (j : Job) :
  ps !! p = None -> job_sourced ps j -> job_sourced (<[p := o]> ps) j.
Proof.
  intros Hp. destruct j as [c d | c l | c d]; simpl; intros [q Hq]; exists q;
    (rewrite lookup_insert_ne; [done | congruence]).
Qed.

Lemma from_promises_init (punkNumber : string) (h : Heap) :
  from_promises (init (PunkInfo_initial punkNumber) h).
Proof.
  unfold from_promises, PunkInfo_initial.
  destruct (truthy punkNumber); simpl.
  - split; [right; left; reflexivity |]. split; [discriminate |].
    split; [discriminate |]. split; intros x Hx; by apply elem_of_nil in Hx.
  - split; [left; reflexivity |]. split; [discriminate |].
    split; [discriminate |]. split; intros x Hx; by apply elem_of_nil in Hx.
Qed.

(** A dispatch that leaves the state alone keeps the invariant. *)
Lemma from_promises_frame (w w' : World) :
  state w' = state w -> promises w' = promises w -> heap w' = heap w ->
  microtasks w' = microtasks w -> timers w' = timers w ->
  from_promises w -> from_promises w'.
Proof.
  unfold from_promises. intros -> -> -> -> ->. done.
Qed.

Lemma from_promises_pending (c : nat) (w w' : World) :
  from_promises w -> dispatch c pending_action w = Ok w' -> from_promises w'.
Proof.
  intros Hw Hd.
  destruct (dispatch_frame _ _ _ _ Hd) as (_ & _ & Hh & Hp & _ & Hq & Ht & _).
  destruct (dispatch_recognized c pending_action w pending_recognized)
    as (w0 & Hd0 & Hon & Hoff).
  rewrite Hd in Hd0. injection Hd0 as <-.
  destruct (mountedRef w) eqn:Hm.
  - destruct (Hon eq_refl) as [Hr _].
    rewrite (reducer_pending _ _ pending_action eq_refl) in Hr.
    injection Hr as Hs.
    destruct Hw as (_ & _ & _ & Hjq & Hjt).
    unfold from_promises. rewrite <- Hs, Hp, Hq, Ht.
    split; [right; left; reflexivity |]. split; [discriminate |].
    split; [discriminate | done].
  - destruct (Hoff eq_refl) as [Hs _].
    by apply (from_promises_frame w).
Qed.

Lemma from_promises_settlement (c : nat) (o : Settled) (w w' : World) :
  from_promises w ->
  (exists p, promises w !! p = Some o) ->
  (forall l, o = Rejected l -> message_fixed (heap w) l) ->
  dispatch c match o with
             | Fulfilled d => resolved_action d
             | Rejected l => rejected_action l
             end w = Ok w' ->
  from_promises w'.
Proof.
  intros Hw [p Hpo] Hmsg Hd.
  destruct (dispatch_frame _ _ _ _ Hd) as (_ & _ & Hh & Hp & _ & Hq & Ht & _).
  destruct (mountedRef w) eqn:Hm.
  - rewrite (dispatch_attached _ _ _ Hm) in Hd.
    destruct Hw as (_ & _ & _ & Hjq & Hjt).
    destruct o as [d | l].
    + rewrite (reducer_resolved _ _ (resolved_action d) eq_refl) in Hd.
      simpl in Hd. injection Hd as <-.
      unfold from_promises. simpl.
      split; [right; right; left; reflexivity |].
      split; [intros _; by exists p |]. split; [discriminate | done].
    + rewrite (reducer_rejected _ _ (rejected_action l) eq_refl) in Hd.
      simpl in Hd. injection Hd as <-.
      unfold from_promises. simpl.
      split; [right; right; right; reflexivity |].
      split; [discriminate |].
      split; [intros _; exists p, l; by auto | done].
  - rewrite (dispatch_detached _ _ _ Hm) in Hd. injection Hd as <-.
    by apply (from_promises_frame w).
Qed.

Lemma from_promises_then (p : pid) (c : nat) (w : World) :
  from_promises w -> from_promises (then_ p c w).
Proof.
  intros (Hl & Hres & Hrej & Hjq & Hjt). unfold then_.
  destruct (promises w !! p) as [[d | l] |] eqn:Hp;
    unfold from_promises; simpl; repeat split; try done;
    intros j Hj; apply elem_of_app in Hj as [Hj | Hj]; try (by apply Hjq);
    apply list_elem_of_singleton in Hj as ->; by exists p.
Qed.

Lemma from_promises_settle (p : pid) (o : Settled) (w : World) :
  from_promises w -> from_promises (settle p o w).
Proof.
  intros (Hl & Hres & Hrej & Hjq & Hjt). unfold settle.
  destruct (promises w !! p) eqn:Hp; [done |].
  unfold from_promises. simpl. split; [done |]. split; [| split; [| split]].
  - intros Hs. destruct (Hres Hs) as [q Hq]. exists q.
    rewrite lookup_insert_ne; [done | congruence].
  - intros Hs. destruct (Hrej Hs) as (q & l & Hq & He & Hm). exists q, l.
    rewrite lookup_insert_ne; [done | congruence].
  - intros j Hj. apply elem_of_app in Hj as [Hj | Hj].
    + by apply job_sourced_insert, Hjq.
    + apply list_elem_of_fmap in Hj as (r & -> & _).
      destruct o; simpl; exists p; by rewrite lookup_insert_eq.
  - intros t Ht. by apply job_sourced_insert, Hjt.
Qed.

Section Provenance.

Variable f : SourceFile.

Lemma from_promises_exec (j : Job) (w w' : World) :
  from_promises w ->
  job_sourced (promises w) j ->
  exec f j w = Ok w' ->
  from_promises w'.
Proof.
  intros Hw Hj. destruct j as [c d | c l | c d]; simpl in Hj; simpl.
  - destruct f.
    + by apply (from_promises_settlement c (Fulfilled d) w).
    + intros [= <-]. destruct Hw as (Hl & Hres & Hrej & Hjq & Hjt).
      unfold from_promises. simpl. repeat split; try done.
      intros t Ht. apply elem_of_app in Ht as [Ht | Ht]; [by apply Hjt |].
      by apply list_elem_of_singleton in Ht as ->.
  - set (w1 := set_heap (alter (set_message user_message) l (heap w)) w).
    apply (from_promises_settlement c (Rejected l) w1).
    + destruct Hw as (Hl & Hres & Hrej & Hjq & Hjt).
      unfold from_promises. simpl. repeat split; try done.
      intros Hs. destruct (Hrej Hs) as (q & l0 & Hq & He & Hm).
      exists q, l0. repeat split; try done. by apply message_fixed_alter.
    + exact Hj.
    + intros l0 [= <-]. apply message_fixed_alter_eq.
  - by apply (from_promises_settlement c (Fulfilled d) w).
Qed.

Lemma from_promises_step (s : Step) (w w' : World) :
  from_promises w -> step f s w = Ok w' -> from_promises w'.
Proof.
  intros Hw. destruct s as [| | p | p o | | i]; simpl.
  - by intros [= <-].
  - by intros [= <-].
  - destruct (run_ok p w) as (w1 & Hd & -> & _). intros [= <-].
    apply from_promises_then.
    by apply (from_promises_pending (calls w) (set_calls (S (calls w)) w)).
  - intros [= <-]. by apply from_promises_settle.
  - destruct (microtasks w) as [| j js] eqn:Hq; [by intros [= <-] |].
    destruct Hw as (Hl & Hres & Hrej & Hjq & Hjt).
    apply from_promises_exec.
    + unfold from_promises. simpl. repeat split; try done.
      intros j' Hj'. apply Hjq. rewrite Hq. by right.
    + simpl. apply Hjq. rewrite Hq. by left.
  - destruct (timers w !! i) as [[ms j] |] eqn:Hi; [| by intros [= <-]].
    destruct Hw as (Hl & Hres & Hrej & Hjq & Hjt).
    apply from_promises_exec.
    + unfold from_promises. simpl. repeat split; try done.
      intros t Ht. by apply Hjt, (list_elem_of_delete_inv _ i).
    + simpl. apply (Hjt (ms, j)). by apply list_elem_of_lookup_2 with i.
Qed.

Lemma from_promises_steps (ss : list Step) (w w' : World) :
  from_promises w -> steps f ss w = Ok w' -> from_promises w'.
Proof.
  revert w. induction ss as [| s ss IH]; intros w Hw; simpl.
  - by intros [= <-].
  - destruct (step f s w) as [w1 |] eqn:Hs; simpl; [| discriminate].
    apply IH. by apply (from_promises_step s w).
Qed.

End Provenance.

Lemma PunkInfo_lifecycle (st : Obj) (punkNumber number : string) (e : ErrorObj) :
  lifecycle st -> PunkInfo st punkNumber number <> Throw (ThrowNew e).
Proof.
  unfold PunkInfo. intros [H | [H | [H | H]]]; rewrite H;
    destruct (truthy punkNumber); discriminate.
Qed.

(** X4. From the state [PunkInfo] starts with, no sequence of mounts,
    unmounts, [run] calls, settlements, promise jobs and timers makes the
    instance throw; the status stays one of idle, pending, resolved,
    rejected, and [PunkInfo] never reaches its last [throw new Error]. *)
Theorem instance_never_throws
    (f : SourceFile) (punkNumber : string) (h : Heap) (ss : list Step) :
  exists w,
    steps f ss (init (PunkInfo_initial punkNumber) h) = Ok w
    /\ lifecycle (state w)
    /\ forall pn number e, PunkInfo (state w) pn number <> Throw (ThrowNew e).
Proof.
  destruct (started_first_steps f ss (init (PunkInfo_initial punkNumber) h)
              (started_first_init _ h)) as (w & Hs & _).
  exists w. split; [exact Hs |].
  pose proof (from_promises_steps f ss _ w
                (from_promises_init punkNumber h) Hs) as (Hl & _).
  split; [exact Hl |]. intros pn number e. by apply PunkInfo_lifecycle.
Qed.

(** X5. What the failure boundary shows is the fixed message: whenever
    the instance is in the rejected state, [PunkInfo], given an
    identifier, throws the [Error] object of the state, and the message
    [ErrorFallback] prints for it is the fixed one. *)
Theorem boundary_shows_user_message
    (f : SourceFile) (punkNumber : string) (h : Heap) (ss : list Step)
    (w : World) (pn number : string) :
  steps f ss (init (PunkInfo_initial punkNumber) h) = Ok w ->
  get (state w) "status" = VStr "rejected" ->
  pn <> "" ->
  exists l,
    PunkInfo (state w) pn number = Throw (ThrowVal (VErr l))
    /\ forall e, heap w !! l = Some e ->
                 pre_text (ErrorFallback e) = user_message.
Proof.
  intros Hs Hst Hpn.
  pose proof (from_promises_steps f ss _ w
                (from_promises_init punkNumber h) Hs) as (_ & _ & Hrej & _).
  destruct (Hrej Hst) as (p & l & _ & He & Hm).
  exists l. split; [| exact Hm].
  unfold PunkInfo. rewrite Hst, He, (truthy_nonempty _ Hpn). reflexivity.
Qed.

Lemma boundary_shows_user_message_witness :
  exists l,
    PunkInfo (state rejected_world) "007" "007" = Throw (ThrowVal (VErr l))
    /\ forall e, heap rejected_world !! l = Some e ->
                 pre_text (ErrorFallback e) = user_message.
Proof.
  apply (boundary_shows_user_message App_tsx "007" {[ 0 := error404 ]}
           [Attach; Run 0; Settle 0 (Rejected 0); Microtask]);
    [vm_compute; reflexivity | reflexivity | discriminate].
Defined.

(** X6. The state never holds a result no promise produced: the data of a
    resolved state is the value a promise was fulfilled with, and the error
    of a rejected state is the [Error] a promise was rejected with. *)
Theorem state_comes_from_promises
    (f : SourceFile) (punkNumber : string) (h : Heap) (ss : list Step)
    (w : World) :
  steps f ss (init (PunkInfo_initial punkNumber) h) = Ok w ->
  (get (state w) "status" = VStr "resolved" ->
   exists p, promises w !! p = Some (Fulfilled (get (state w) "data")))
  /\ (get (state w) "status" = VStr "rejected" ->
      exists p l, promises w !! p = Some (Rejected l)
                  /\ get (state w) "error" = VErr l).
Proof.
  intros Hs.
  pose proof (from_promises_steps f ss _ w
                (from_promises_init punkNumber h) Hs)
    as (_ & Hres & Hrej & _).
  split; [exact Hres |]. intros Hst.
  destruct (Hrej Hst) as (p & l & Hp & He & _). by exists p, l.
Qed.

Lemma state_comes_from_promises_witness :
  exists p l,
    promises rejected_world !! p = Some (Rejected l)
    /\ get (state rejected_world) "error" = VErr l.
Proof.
  apply (state_comes_from_promises App_tsx "007" {[ 0 := error404 ]}
           [Attach; Run 0; Settle 0 (Rejected 0); Microtask]);
    [vm_compute; reflexivity | reflexivity].
Defined.

(** ** A lookup from the request to what is shown *)

Lemma effect_is_run (punkNumber : string) (p : pid) (w : World) :
  punkNumber <> "" -> PunkInfo_effect punkNumber p w = run p w.
Proof.
  intros H. unfold PunkInfo_effect. by rewrite (truthy_nonempty _ H).
Qed.

(** [run] on a pending promise keeps its callbacks for the settlement. *)
Lemma run_registers (p : pid) (w : World) :
  promises w !! p = None ->
  exists w1,
    run p w = Ok w1
    /\ promises w1 = promises w
    /\ reactions w1 = reactions w ++ [(p, calls w)]
    /\ microtasks w1 = microtasks w /\ timers w1 = timers w
    /\ mountedRef w1 = mountedRef w /\ heap w1 = heap w
    /\ calls w1 = S (calls w)
    /\ (mountedRef w = true -> state w1 = {[ "status" := VStr "pending" ]}).
Proof.
  intros Hp. destruct (run_ok p w) as (w0 & Hd & -> & Hon & _).
  destruct (dispatch_frame _ _ _ _ Hd)
    as (_ & Hm0 & Hh0 & Hp0 & Hr0 & Hq0 & Ht0 & Hc0).
  simpl in Hm0, Hh0, Hp0, Hr0, Hq0, Ht0, Hc0.
  eexists; split; [reflexivity |]. unfold then_. rewrite Hp0, Hp. simpl.
  rewrite Hr0. repeat split; try done. intros Hm. by apply Hon.
Qed.

(** The settlement of a pending promise puts its callbacks in the queue. *)
Lemma settle_fields (p : pid) (o : Settled) (w : World) :
  promises w !! p = None ->
  promises (settle p o w) = <[p := o]> (promises w)
  /\ reactions (settle p o w)
     = filter (fun r : pid * nat => r.1 <> p) (reactions w)
  /\ microtasks (settle p o w)
     = microtasks w
       ++ ((fun r : pid * nat => job_of o r.2)
             <$> filter (fun r : pid * nat => r.1 = p) (reactions w)).
Proof. intros Hp. unfold settle. by rewrite Hp. Qed.

Lemma settle_queues (p : pid) (o : Settled) (c : nat) (w : World) :
  promises w !! p = None ->
  microtasks w = [] ->
  (p, c) ∈ reactions w ->
  exists c' js, microtasks (settle p o w) = job_of o c' :: js.
Proof.
  intros Hp Hq Hin. destruct (settle_fields p o w Hp) as (_ & _ & ->).
  rewrite Hq. simpl.
  destruct (filter (fun r : pid * nat => r.1 = p) (reactions w))
    as [| r rs] eqn:Hf.
  - exfalso. apply (filter_nil_not_elem_of _ _ (p, c) Hf); done.
  - by exists r.2, ((fun r : pid * nat => job_of o r.2) <$> rs).
Qed.

(** The settlement of the promise of a [run] call, and its callback. *)
Lemma settled_job_runs (f : SourceFile) (p : pid) (o : Settled) (c : nat)
    (w : World) :
  promises w !! p = None ->
  microtasks w = [] ->
  (p, c) ∈ reactions w ->
  exists c' js,
    step f Microtask (settle p o w)
    = exec f (job_of o c') (set_microtasks js (settle p o w)).
Proof.
  intros Hp Hq Hin.
  destruct (settle_queues p o c w Hp Hq Hin) as (c' & js & Hs).
  exists c', js. simpl. by rewrite Hs.
Qed.

Lemma lookup_rejected (f : SourceFile) (p : pid) (e : ErrorObj) (c : nat)
    (w : World) :
  mountedRef w = true ->
  promises w !! p = None ->
  microtasks w = [] ->
  (p, c) ∈ reactions w ->
  exists w2 l,
    step f Microtask (settle_with p (Rejects e) w) = Ok w2
    /\ state w2 = {[ "status" := VStr "rejected"; "error" := VErr l ]}
    /\ heap w2 !! l = Some {| name := name e; message := user_message |}.
Proof.
  intros Hm Hp Hq Hin. unfold settle_with.
  set (l := fresh (dom (heap w))).
  set (w1 := set_heap (<[l := e]> (heap w)) w).
  destruct (settled_job_runs f p (Rejected l) c w1 Hp Hq Hin)
    as (c' & js & ->).
  destruct (exec_rejected f c' l (set_microtasks js (settle p (Rejected l) w1)))
    as (w2 & Hx & Hh & _ & _ & Hon & _).
  simpl in Hx. exists w2, l. split; [exact Hx |].
  destruct (settle_frame p (Rejected l) w1) as (_ & _ & Hm1 & Hh1 & _).
  split.
  - apply Hon. simpl. by rewrite Hm1.
  - rewrite Hh. simpl. rewrite Hh1. simpl.
    by rewrite lookup_alter_eq, lookup_insert_eq.
Qed.

(** X7. A failed lookup shows the fixed message, in both copies of the
    file: when [fetchPunk] rejects with an error, whichever it is, the
    effect of a mounted [PunkInfo] first leaves the pending state, and
    once the callback of the rejection has run the state is rejected,
    the error has its name and the fixed message, and [PunkInfo] throws
    it to the failure boundary. *)
Theorem failed_lookup_shows_user_message
    (f : SourceFile) (punkNumber : string) (net : Network) (e : ErrorObj)
    (p : pid) (w : World) :
  fetchPunk f punkNumber net = Rejects e ->
  punkNumber <> "" ->
  mountedRef w = true ->
  promises w !! p = None ->
  microtasks w = [] ->
  exists w1 w2 l,
    PunkInfo_effect punkNumber p w = Ok w1
    /\ state w1 = {[ "status" := VStr "pending" ]}
    /\ step f Microtask (settle_with p (fetchPunk f punkNumber net) w1)
       = Ok w2
    /\ state w2 = {[ "status" := VStr "rejected"; "error" := VErr l ]}
    /\ heap w2 !! l = Some {| name := name e; message := user_message |}
    /\ PunkInfo (state w2) punkNumber punkNumber = Throw (ThrowVal (VErr l)).
Proof.
  intros Hf Hpn Hm Hp Hq. rewrite Hf, (effect_is_run _ p w Hpn).
  destruct (run_registers p w Hp)
    as (w1 & -> & Hp1 & Hr1 & Hq1 & _ & Hm1 & _ & _ & Hs1).
  destruct (lookup_rejected f p e (calls w) w1) as (w2 & l & Hx & Hs2 & Hh2).
  { congruence. }
  { congruence. }
  { congruence. }
  { rewrite Hr1. apply elem_of_app. right. by apply list_elem_of_singleton. }
  exists w1, w2, l. split; [done |]. split; [by apply Hs1 |].
  split; [exact Hx |]. split; [exact Hs2 |]. split; [exact Hh2 |].
  rewrite Hs2. unfold PunkInfo. rewrite (truthy_nonempty _ Hpn). reflexivity.
Qed.

Lemma failed_lookup_shows_user_message_witness :
  exists w1 w2 l,
    PunkInfo_effect "007" 0 attached = Ok w1
    /\ state w1 = {[ "status" := VStr "pending" ]}
    /\ step App_tsx Microtask
         (settle_with 0
            (fetchPunk App_tsx "007" (Response false (Json punk7))) w1)
       = Ok w2
    /\ state w2 = {[ "status" := VStr "rejected"; "error" := VErr l ]}
    /\ heap w2 !! l
       = Some {| name := name (no_punk_found "007");
                 message := user_message |}
    /\ PunkInfo (state w2) "007" "007" = Throw (ThrowVal (VErr l)).
Proof.
  apply (failed_lookup_shows_user_message App_tsx "007"
           (Response false (Json punk7)) (no_punk_found "007") 0 attached);
    first [reflexivity | discriminate].
Defined.

Lemma lookup_fulfilled (f : SourceFile) (p : pid) (v : JsVal) (c : nat)
    (w : World) :
  mountedRef w = true ->
  promises w !! p = None ->
  microtasks w = [] ->
  (p, c) ∈ reactions w ->
  exists w2,
    step f Microtask (settle_with p (Returns v) w) = Ok w2
    /\ match f with
       | App_tsx =>
           state w2 = {[ "status" := VStr "resolved"; "data" := v ]}
       | part_000 =>
           state w2 = state w
           /\ exists w3,
                step part_000 (Timer (length (timers w))) w2 = Ok w3
                /\ state w3 = {[ "status" := VStr "resolved"; "data" := v ]}
       end.
Proof.
  intros Hm Hp Hq Hin. unfold settle_with.
  destruct (settled_job_runs f p (Fulfilled v) c w Hp Hq Hin)
    as (c' & js & ->).
  destruct (settle_frame p (Fulfilled v) w) as (Hs1 & _ & Hm1 & _ & _ & Ht1 & _).
  set (w1 := set_microtasks js (settle p (Fulfilled v) w)).
  destruct f.
  - destruct (exec_fulfilled_direct c' v w1) as (w2 & Hx & _ & _ & Hon).
    exists w2. split; [exact Hx |]. apply Hon. simpl. by rewrite Hm1.
  - eexists. split; [reflexivity |]. simpl. split; [exact Hs1 |].
    rewrite Ht1, list_lookup_middle by done. rewrite delete_middle, app_nil_r.
    destruct (exec_fulfilled_direct c' v
                (set_timers (timers w)
                   (set_timers (timers w ++ [(2000, OnTimeout c' v)]) w1)))
      as (w3 & Hx & _ & _ & Hon).
    simpl in Hx. exists w3. split; [exact Hx |].
    apply Hon. simpl. by rewrite Hm1.
Qed.

(** X8. A successful lookup shows the punk: when [fetchPunk] returns a
    value, the effect of a mounted [PunkInfo] first leaves the pending
    state; in [src/App.tsx] the state is resolved with that value once the
    callback of the fulfilment has run, in the second copy it is still
    pending then and becomes resolved when the timer the callback has set
    fires.  [PunkInfo] then returns the card of that value. *)
Theorem successful_lookup_shows_punk
    (f : SourceFile) (punkNumber : string) (net : Network) (v : JsVal)
    (p : pid) (w : World) :
  fetchPunk f punkNumber net = Returns v ->
  punkNumber <> "" ->
  mountedRef w = true ->
  promises w !! p = None ->
  microtasks w = [] ->
  exists w1 w2,
    PunkInfo_effect punkNumber p w = Ok w1
    /\ state w1 = {[ "status" := VStr "pending" ]}
    /\ step f Microtask (settle_with p (fetchPunk f punkNumber net) w1)
       = Ok w2
    /\ exists w3,
         match f with
         | App_tsx => w3 = w2
         | part_000 =>
             state w2 = {[ "status" := VStr "pending" ]}
             /\ step part_000 (Timer (length (timers w))) w2 = Ok w3
         end
         /\ state w3 = {[ "status" := VStr "resolved"; "data" := v ]}
         /\ PunkInfo (state w3) punkNumber punkNumber
            = Ok (ValidPunkCardEl punkNumber v).
Proof.
  intros Hf Hpn Hm Hp Hq. rewrite Hf, (effect_is_run _ p w Hpn).
  destruct (run_registers p w Hp)
    as (w1 & -> & Hp1 & Hr1 & Hq1 & Ht1 & Hm1 & _ & _ & Hs1).
  destruct (lookup_fulfilled f p v (calls w) w1) as (w2 & Hx & Hres).
  { congruence. }
  { congruence. }
  { congruence. }
  { rewrite Hr1. apply elem_of_app. right. by apply list_elem_of_singleton. }
  exists w1, w2. split; [done |]. split; [by apply Hs1 |].
  split; [exact Hx |].
  assert (Hcard : forall st : Obj,
            st = {[ "status" := VStr "resolved"; "data" := v ]} ->
            PunkInfo st punkNumber punkNumber
            = Ok (ValidPunkCardEl punkNumber v)).
  { intros st ->. unfold PunkInfo. rewrite (truthy_nonempty _ Hpn).
    reflexivity. }
  destruct f.
  - exists w2. split; [done |]. split; [exact Hres | by apply Hcard].
  - destruct Hres as (Hs2 & w3 & Ht & Hs3). exists w3.
    rewrite Ht1 in Ht. split; [| split; [exact Hs3 | by apply Hcard]].
    split; [| exact Ht]. rewrite Hs2. by apply Hs1.
Qed.

Lemma successful_lookup_shows_punk_witness :
  exists w1 w2,
    PunkInfo_effect "007" 0 attached = Ok w1
    /\ state w1 = {[ "status" := VStr "pending" ]}
    /\ step part_000 Microtask
         (settle_with 0
            (fetchPunk part_000 "007" (Response true (Json punk7))) w1)
       = Ok w2
    /\ exists w3,
         (state w2 = {[ "status" := VStr "pending" ]}
          /\ step part_000 (Timer (length (timers attached))) w2 = Ok w3)
         /\ state w3 = {[ "status" := VStr "resolved"; "data" := VPunk punk7 ]}
         /\ PunkInfo (state w3) "007" "007"
            = Ok (ValidPunkCardEl "007" (VPunk punk7)).
Proof.
  apply (successful_lookup_shows_punk part_000 "007"
           (Response true (Json punk7)) (VPunk punk7) 0 attached);
    first [reflexivity | discriminate].
Defined.

(** X9. The two copies part on a response that is not ok but has a JSON
    body.  In [src/App.tsx] the lookup fails with ["No Punk found with the
    number ..."], which the rejection callback replaces: the state becomes
    rejected with the fixed message.  In the second copy [fetchPunk]
    returns the body, so after the callback and its timer the state is
    resolved with it and [PunkInfo] returns its card; the failure boundary
    is not reached. *)
Theorem not_ok_response_in_both_copies
    (punkNumber : string) (punkData : PunkData) (p : pid) (w : World) :
  punkNumber <> "" ->
  mountedRef w = true ->
  promises w !! p = None ->
  microtasks w = [] ->
  exists w1,
    PunkInfo_effect punkNumber p w = Ok w1
    /\ (exists w2 l,
          step App_tsx Microtask
            (settle_with p
               (fetchPunk App_tsx punkNumber (Response false (Json punkData)))
               w1) = Ok w2
          /\ state w2 = {[ "status" := VStr "rejected"; "error" := VErr l ]}
          /\ heap w2 !! l = Some (new_Error user_message))
    /\ (exists w2 w3,
          step part_000 Microtask
            (settle_with p
               (fetchPunk part_000 punkNumber (Response false (Json punkData)))
               w1) = Ok w2
          /\ step part_000 (Timer (length (timers w))) w2 = Ok w3
          /\ state w3 = {[ "status" := VStr "resolved";
                           "data" := VPunk punkData ]}
          /\ PunkInfo (state w3) punkNumber punkNumber
             = Ok (ValidPunkCardEl punkNumber (VPunk punkData))).
Proof.
  intros Hpn Hm Hp Hq. rewrite (effect_is_run _ p w Hpn).
  destruct (run_registers p w Hp)
    as (w1 & -> & Hp1 & Hr1 & Hq1 & Ht1 & Hm1 & _ & _ & Hs1).
  assert (Hin : (p, calls w) ∈ reactions w1).
  { rewrite Hr1. apply elem_of_app. right. by apply list_elem_of_singleton. }
  exists w1. split; [done |]. split.
  - destruct (lookup_rejected App_tsx p (no_punk_found punkNumber) (calls w) w1)
      as (w2 & l & Hx & Hs2 & Hh2); try congruence.
    by exists w2, l.
  - destruct (lookup_fulfilled part_000 p (VPunk punkData) (calls w) w1)
      as (w2 & Hx & _ & w3 & Ht & Hs3); try congruence.
    exists w2, w3. split; [exact Hx |]. rewrite Ht1 in Ht.
    split; [exact Ht |]. split; [exact Hs3 |].
    rewrite Hs3. unfold PunkInfo. rewrite (truthy_nonempty _ Hpn).
    reflexivity.
Qed.

Lemma not_ok_response_in_both_copies_witness :
  exists w1,
    PunkInfo_effect "007" 0 attached = Ok w1
    /\ (exists w2 l,
          step App_tsx Microtask
            (settle_with 0
               (fetchPunk App_tsx "007" (Response false (Json punk7))) w1)
          = Ok w2
          /\ state w2 = {[ "status" := VStr "rejected"; "error" := VErr l ]}
          /\ heap w2 !! l = Some (new_Error user_message))
    /\ (exists w2 w3,
          step part_000 Microtask
            (settle_with 0
               (fetchPunk part_000 "007" (Response false (Json punk7))) w1)
          = Ok w2
          /\ step part_000 (Timer (length (timers attached))) w2 = Ok w3
          /\ state w3 = {[ "status" := VStr "resolved";
                           "data" := VPunk punk7 ]}
          /\ PunkInfo (state w3) "007" "007"
             = Ok (ValidPunkCardEl "007" (VPunk punk7))).
Proof.
  apply (not_ok_response_in_both_copies "007" punk7 0 attached);
    first [reflexivity | discriminate].
Defined.

(** X10. The timer of the second copy completes what [src/App.tsx] does at
    once: when the timer set by the fulfilment callback fires next, the
    instance is the one the callback of [src/App.tsx] gives. *)
Theorem timer_completes_fulfilment (c : nat) (data : JsVal) (w : World) :
  exists w1,
    exec part_000 (OnFulfilled c data) w = Ok w1
    /\ step part_000 (Timer (length (timers w))) w1
       = exec App_tsx (OnFulfilled c data) w.
Proof.
  destruct w as [m st h ps rs q ts rc n lg].
  eexists. split; [reflexivity |]. simpl.
  rewrite list_lookup_middle by done. by rewrite delete_middle, app_nil_r.
Qed.

(** ** Overlapping lookups *)











(** ** The timers and the first render *)

Lemma timers_of_exec (f : SourceFile) (j : Job) (w w' : World) :
  timers_of f w -> exec f j w = Ok w' -> timers_of f w'.
Proof.
  intros Hw Hx. destruct j as [c d | c l | c d]; simpl in Hx.
  - destruct f.
    + destruct (dispatch_frame _ _ _ _ Hx) as (_ & _ & _ & _ & _ & _ & Ht & _).
      unfold timers_of in *. by rewrite Ht.
    + injection Hx as <-. simpl. intros t Ht.
      apply elem_of_app in Ht as [Ht | Ht]; [by apply Hw |].
      apply list_elem_of_singleton in Ht as ->. by exists c, d.
  - destruct (dispatch_frame _ _ _ _ Hx) as (_ & _ & _ & _ & _ & _ & Ht & _).
    destruct f; unfold timers_of in *; by rewrite Ht.
  - destruct (dispatch_frame _ _ _ _ Hx) as (_ & _ & _ & _ & _ & _ & Ht & _).
    destruct f; unfold timers_of in *; by rewrite Ht.
Qed.

Lemma timers_of_step (f : SourceFile) (s : Step) (w w' : World) :
  timers_of f w -> step f s w = Ok w' -> timers_of f w'.
Proof.
  intros Hw. destruct s as [| | p | p o | | i]; simpl.
  - intros [= <-]. by destruct f.
  - intros [= <-]. by destruct f.
  - intros Hr. destruct (run_timers p w) as (w1 & Hr1 & Ht).
    rewrite Hr in Hr1. injection Hr1 as <-.
    destruct f; unfold timers_of in *; by rewrite Ht.
  - intros [= <-]. destruct (settle_frame p o w) as (_ & _ & _ & _ & _ & Ht & _).
    destruct f; unfold timers_of in *; by rewrite Ht.
  - destruct (microtasks w) as [| j js]; [by intros [= <-] |].
    apply timers_of_exec. by destruct f.
  - destruct (timers w !! i) as [[ms j] |] eqn:Hi; [| by intros [= <-]].
    apply timers_of_exec.
    destruct f; simpl in *.
    + by rewrite Hw in Hi.
    + intros t Ht. by apply Hw, (list_elem_of_delete_inv _ i).
Qed.

(** X13. Whatever happens to the instance, [src/App.tsx] never has a
    timer pending, and every timer the second copy has pending is one of
    2000 ms that holds the ['resolved'] dispatch of a fulfilment. *)
Theorem pending_timers (f : SourceFile) (st : Obj) (h : Heap)
    (ss : list Step) :
  exists w, steps f ss (init st h) = Ok w /\ timers_of f w.
Proof.
  destruct (started_first_steps f ss (init st h) (started_first_init st h))
    as (w & Hs & _).
  exists w. split; [exact Hs |].
  assert (Hgen : forall ss w0 w1,
            timers_of f w0 -> steps f ss w0 = Ok w1 -> timers_of f w1).
  { clear. induction ss as [| s ss IH]; intros w0 w1 H0; simpl.
    - by intros [= <-].
    - destruct (step f s w0) as [w' |] eqn:Hs; simpl; [| discriminate].
      apply IH. by apply (timers_of_step f s w0). }
  apply (Hgen ss (init st h) w); [| exact Hs].
  destruct f; simpl; [done |]. intros t Ht. by apply elem_of_nil in Ht.
Qed.

(** X14. The first render: with an identifier [PunkInfo] starts in the
    pending state and returns the fallback card at once, before its effect
    has called [run]; without one it starts idle, returns the empty
    paragraph, and its effect calls nothing. *)
Theorem first_render (punkNumber number : string) (p : pid) (h : Heap) :
  let w := init (PunkInfo_initial punkNumber) h in
  get (state w) "data" = VNull /\ get (state w) "error" = VNull
  /\ (punkNumber <> "" ->
      get (state w) "status" = VStr "pending"
      /\ PunkInfo (state w) punkNumber number = Ok (PunkCardFallbackEl number))
  /\ (punkNumber = "" ->
      get (state w) "status" = VStr "idle"
      /\ PunkInfo (state w) punkNumber number = Ok Paragraph
      /\ PunkInfo_effect punkNumber p w = Ok w).
Proof.
  simpl. unfold PunkInfo_initial, PunkInfo_effect, PunkInfo.
  split; [by destruct (truthy punkNumber) |].
  split; [by destruct (truthy punkNumber) |]. split.
  - intros Hpn. by rewrite (truthy_nonempty _ Hpn).
  - by intros ->.
Qed.

Lemma first_render_witness :
  (get (state world0) "status" = VStr "pending"
   /\ PunkInfo (state world0) "007" "007" = Ok (PunkCardFallbackEl "007"))
  /\ (get (state (init (PunkInfo_initial "") ∅)) "status" = VStr "idle"
      /\ PunkInfo (state (init (PunkInfo_initial "") ∅)) "" "" = Ok Paragraph
      /\ PunkInfo_effect "" 0 (init (PunkInfo_initial "") ∅)
         = Ok (init (PunkInfo_initial "") ∅)).
Proof.
  split.
  - apply (first_render "007" "007" 0 {[ 0 := error404 ]}). discriminate.
  - apply (first_render "" "" 0 ∅). reflexivity.
Defined.

(** ** One dispatch sequence for each [run] call *)

Section Tally.

Context {A : Type} (P : A -> Prop) `{!forall x, Decision (P x)}.

Lemma tally_nil : tally P [] = 0.
Proof. reflexivity. Qed.

Lemma tally_cons (x : A) (l : list A) :
  tally P (x :: l) = (if decide (P x) then 1 else 0) + tally P l.
Proof.
  unfold tally. rewrite filter_cons. by destruct (decide (P x)).
Qed.

Lemma tally_app (l1 l2 : list A) :
  tally P (l1 ++ l2) = tally P l1 + tally P l2.
Proof. unfold tally. by rewrite filter_app, List.length_app. Qed.

Lemma tally_one (x : A) : tally P [x] = if decide (P x) then 1 else 0.
Proof. rewrite tally_cons, tally_nil. lia. Qed.

Lemma tally_delete (l : list A) (i : nat) (x : A) :
  l !! i = Some x ->
  tally P l = (if decide (P x) then 1 else 0) + tally P (delete i l).
Proof.
  revert i. induction l as [| y l IH]; intros i Hi; [done |].
  destruct i as [| i]; simpl in Hi.
  - injection Hi as ->. simpl. by rewrite tally_cons.
  - simpl. rewrite !tally_cons, (IH i Hi). lia.
Qed.

End Tally.

(** The callbacks a settlement moves from the promise to the job queue
    keep their calls. *)
Lemma tally_settle (p : pid) (o : Settled) (c : nat) (rs : list (pid * nat)) :
  tally (fun r : pid * nat => r.2 = c)
    (filter (fun r : pid * nat => r.1 <> p) rs)
  + tally (fun j : Job => job_call j = c)
      ((fun r : pid * nat => job_of o r.2)
         <$> filter (fun r : pid * nat => r.1 = p) rs)
  = tally (fun r : pid * nat => r.2 = c) rs.
Proof.
  induction rs as [| r rs IH]; [done |].
  rewrite (tally_cons _ r rs), <- IH.
  destruct (decide (r.1 = p)) as [Hr | Hr].
  - rewrite (filter_cons_True (fun r : pid * nat => r.1 = p)) by done.
    rewrite (filter_cons_False (fun r : pid * nat => r.1 <> p)) by tauto.
    rewrite fmap_cons, tally_cons, job_of_call. lia.
  - rewrite (filter_cons_False (fun r : pid * nat => r.1 = p)) by done.
    rewrite (filter_cons_True (fun r : pid * nat => r.1 <> p)) by done.
    rewrite tally_cons. lia.
Qed.

Lemma one_sequence_init (st : Obj) (h : Heap) :
  one_sequence_per_call (init st h).
Proof.
  intros c. unfold starts, waiting, settlements. simpl.
  rewrite !tally_nil. destruct (decide (c < 0)); [lia | done].
Qed.

(** What a dispatch adds to the counts of a call. *)
Lemma dispatch_counts (c0 : nat) (a : Obj) (w w' : World) (c : nat) :
  dispatch c0 a w = Ok w' ->
  waiting c w' = waiting c w
  /\ calls w' = calls w
  /\ starts c w'
     = starts c w
       + (if decide (c0 = c
                     /\ is_settlement {| by_call := c0; action := a |} = false)
          then 1 else 0)
  /\ settlements c w'
     = settlements c w
       + (if decide (c0 = c
                     /\ is_settlement {| by_call := c0; action := a |} = true)
          then 1 else 0).
Proof.
  intros Hd.
  destruct (dispatch_frame _ _ _ _ Hd) as (Hl & _ & _ & _ & Hr & Hq & Ht & Hc).
  unfold waiting, starts, settlements. rewrite Hl, Hr, Hq, Ht, !tally_app.
  rewrite !tally_one. simpl. done.
Qed.

Lemma then_counts (p : pid) (c0 : nat) (w : World) (c : nat) :
  waiting c (then_ p c0 w)
  = waiting c w + (if decide (c0 = c) then 1 else 0)
  /\ starts c (then_ p c0 w) = starts c w
  /\ settlements c (then_ p c0 w) = settlements c w
  /\ calls (then_ p c0 w) = calls w.
Proof.
  unfold then_, waiting, starts, settlements.
  destruct (promises w !! p) as [[d | l] |]; simpl;
    rewrite tally_app, tally_one; simpl; repeat split; lia.
Qed.

Lemma settle_counts (p : pid) (o : Settled) (w : World) (c : nat) :
  waiting c (settle p o w) = waiting c w
  /\ starts c (settle p o w) = starts c w
  /\ settlements c (settle p o w) = settlements c w
  /\ calls (settle p o w) = calls w.
Proof.
  unfold settle, waiting, starts, settlements.
  destruct (promises w !! p); [done |]. simpl.
  rewrite tally_app. pose proof (tally_settle p o c (reactions w)).
  repeat split. lia.
Qed.

Section Counts.

Variable f : SourceFile.

(** A callback that runs is replaced by one settlement dispatch, or, for
    a fulfilment in the second copy, by one timer. *)
Lemma exec_counts (j : Job) (w w' : World) (c : nat) :
  exec f j w = Ok w' ->
  waiting c w' + settlements c w'
  = waiting c w + settlements c w
    + (if decide (job_call j = c) then 1 else 0)
  /\ starts c w' = starts c w
  /\ calls w' = calls w.
Proof.
  assert (Hd : forall c0 a w0,
            is_settlement {| by_call := c0; action := a |} = true ->
            dispatch c0 a w0 = Ok w' ->
            waiting c w' + settlements c w'
            = waiting c w0 + settlements c w0
              + (if decide (c0 = c) then 1 else 0)
            /\ starts c w' = starts c w0 /\ calls w' = calls w0).
  { intros c0 a w0 Ha Hx.
    destruct (dispatch_counts c0 a w0 w' c Hx) as (-> & -> & -> & ->).
    rewrite Ha.
    repeat case_decide; try lia; try tauto; destruct_and?; done. }
  destruct j as [c0 d | c0 l | c0 d]; simpl.
  - destruct f.
    + by apply Hd.
    + intros [= <-]. unfold waiting, starts, settlements. simpl.
      rewrite tally_app, tally_one. simpl. repeat split. lia.
  - intros Hx. by apply Hd in Hx.
  - by apply Hd.
Qed.

Lemma one_sequence_step (s : Step) (w w' : World) :
  one_sequence_per_call w -> step f s w = Ok w' -> one_sequence_per_call w'.
Proof.
  intros Hw. destruct s as [| | p | p o | | i]; simpl.
  - by intros [= <-].
  - by intros [= <-].
  - destruct (run_ok p w) as (w1 & Hd & -> & _). intros [= <-]. intros c.
    destruct (Hw c) as [Hs Hws].
    destruct (dispatch_counts _ _ _ _ c Hd) as (Hw1 & Hc1 & Hs1 & Hx1).
    destruct (then_counts p (calls w) w1 c) as (-> & -> & -> & ->).
    rewrite Hw1, Hc1, Hs1, Hx1. simpl.
    unfold waiting, starts, settlements in *. simpl.
    repeat case_decide; try lia; try tauto; destruct_and?; try done; lia.
  - intros [= <-]. intros c. destruct (Hw c) as [Hs Hws].
    by destruct (settle_counts p o w c) as (-> & -> & -> & ->).
  - destruct (microtasks w) as [| j js] eqn:Hq; [by intros [= <-] |].
    intros Hx c. destruct (Hw c) as [Hs Hws].
    destruct (exec_counts j _ _ c Hx) as (Hsum & -> & ->).
    rewrite Hsum. unfold waiting, starts, settlements in *. simpl.
    rewrite Hq, tally_cons in Hws. split; [done | lia].
  - destruct (timers w !! i) as [[ms j] |] eqn:Hi; [| by intros [= <-]].
    intros Hx c. destruct (Hw c) as [Hs Hws].
    destruct (exec_counts j _ _ c Hx) as (Hsum & -> & ->).
    rewrite Hsum. unfold waiting, starts, settlements in *. simpl.
    rewrite (tally_delete (fun t : nat * Job => job_call t.2 = c)
               (timers w) i (ms, j) Hi) in Hws.
    simpl in Hws. split; [done | lia].
Qed.

Lemma one_sequence_steps (ss : list Step) (w w' : World) :
  one_sequence_per_call w -> steps f ss w = Ok w' ->
  one_sequence_per_call w'.
Proof.
  revert w. induction ss as [| s ss IH]; intros w Hw; simpl.
  - by intros [= <-].
  - destruct (step f s w) as [w1 |] eqn:Hs; simpl; [| discriminate].
    apply IH. by apply (one_sequence_step s w).
Qed.

End Counts.

(** X15. One dispatch sequence for each [run] call, in both copies of
    the file: in every state the instance can reach, a [run] call that
    has been made has dispatched ['pending'] exactly once, and either has
    exactly one callback still waiting (on its promise, in the job queue
    or behind a timer) and has dispatched no settlement, or has none
    waiting and has dispatched exactly one. *)
Theorem one_dispatch_sequence_per_run
    (f : SourceFile) (st : Obj) (h : Heap) (ss : list Step) (w : World)
    (c : nat) :
  steps f ss (init st h) = Ok w ->
  c < calls w ->
  starts c w = 1
  /\ ((waiting c w = 1 /\ settlements c w = 0)
      \/ (waiting c w = 0 /\ settlements c w = 1)).
Proof.
  intros Hs Hc.
  destruct (one_sequence_steps f ss _ w (one_sequence_init st h) Hs c)
    as [Hst Hws].
  rewrite decide_True in Hst, Hws by done. split; [done | lia].
Qed.

Lemma one_dispatch_sequence_per_run_witness :
  starts 0 rejected_world = 1
  /\ ((waiting 0 rejected_world = 1 /\ settlements 0 rejected_world = 0)
      \/ (waiting 0 rejected_world = 0 /\ settlements 0 rejected_world = 1)).
Proof.
  apply (one_dispatch_sequence_per_run App_tsx (PunkInfo_initial "007")
           {[ 0 := error404 ]}
           [Attach; Run 0; Settle 0 (Rejected 0); Microtask]);
    [vm_compute; reflexivity | vm_compute; lia].
Defined.
